(* ===== verification/_CoqProject ===== *)
-Q . S2P
Prelude.v
Plugin.v
Loader.v
RefLoader.v
Protocol.v
Runtime.v
Modules.v
HostCpp.v
HostC.v
Refinement.v
Scenarios.v
