(* ===== verification/Prelude.v ===== *)
(** * Runtime plugin loading with dlopen: a verification development

    The repository demonstrates how a host program loads a shared object at
    run time, resolves named symbols in it and calls into it, in two
    variants:

    - the C variant, [src/dlopen_c_example/dlopen.c]: the host opens the
      object named by its first argument ([dlopen(argv[1], RTLD_GLOBAL |
      RTLD_LAZY)]), reads the string variable [libname] exported by it,
      prints it, resolves the function named by its second argument and
      calls it;
    - the C++ factory variant, [src/dlopen_cpp_example/dlopen.cc]: the host
      opens the object ([dlopen(argv[1], 0)]), reads the string variable
      [classname], prints it, resolves the global object [Factory], asks it
      to [makedyn()] a plugin instance, calls [test()] on the instance,
      [delete]s it and [dlclose]s the object.  The modules [foo.cc],
      [bar.cc] and [baz.cc] are three implementations of that protocol: a
      [classname] string, a class derived from [plugin] and a factory class
      derived from [factory] with its global instance [Factory].
    The header [plugin.h] declaring [plugin] and [factory] is not part of
    the sources; its contract is taken from the specification (section
    4.1): [factory::makedyn] and [plugin::test] are virtual, and the
    destructor of [plugin] is virtual, so that [delete] runs the module's
    destructor.

    ** Files and what they model (in dependency order)

    - [Prelude] (this file): the state-and-error monad [ST] in which the
      hosts are written ([do x <- m ; k] and [m ;; k] in [st_scope]), its
      laws, the invariant combinator [st_preserves], Hoare triples
      [st_triple] (precondition, postcondition on the result, condition on
      the error exit) with their bind, consequence and exact-state rules,
      the inversion [st_bind_inv] and its tactic [st_inv], the tactics [st_seq]
      (run the first step of a sequence with a lemma giving its result)
      and [st_red], and the hint databases [st] (rewriting) and [dl]
      (resolution).
    - [Plugin]: what modules export, from the contract of [plugin.h]: a
      plugin class (constructor, [test], destructor, each given by the
      lines it prints), a factory class ([makedyn] prints, then returns
      [new] of its product), the values a symbol can denote ([symval]: a
      [const char *] variable, a factory object, a C function) and object
      files ([objfile]).  The Module Registry Protocol of the
      specification is the class [FactoryProtocol] ([classname] and
      [Factory] exported at their kinds) and [LibProtocol] ([libname]);
      [factory_exports_typed] is its typing half.
    - [Loader]: the interface of the system's dynamic loader (dlopen,
      dlsym, dlclose, dlerror, which handles are open, which modes are
      accepted) as the class [Loader] with its contract [LoaderLaws];
      glibc's constants [RTLD_LAZY], [RTLD_NOW], [RTLD_GLOBAL] and its
      check on the mode argument ([glibc_mode_ok]).  The loader is a library
      the sources only call: the hosts' theorems assume [LoaderLaws] only.
    - [RefLoader]: a reference-counting implementation over a file system
      ([gmap string objfile]) with a pending diagnostic, parameterised by the
      accepted modes ([glibc_loader], [lenient_loader]), and the proof
      [rl_laws] that it meets [LoaderLaws].
    - [Protocol]: the specification's plugin lifecycle (sections 3 and
      4.2) as an abstract machine, independent of the code: abstract
      states (open modules, live instances with their module), labelled
      steps [astep] (load, call, construct, invoke, release, unload, each
      with the guard the specification states), runs [arun], the setoid
      [aequiv] with [Proper] instances for both relations, the lifetime
      invariant [alive_ok] proved for every run by induction on it, the
      host sequences [host_protocol] and [c_host_protocol], and liveness
      on finite traces ([eventually], [leads_to]).
    - [Runtime]: the host process ([proc]: loader state, C++ heap of plugin
      objects, next address, lines written to standard output, and the
      log [p_ev] of the protocol events its calls performed), undefined
      behaviour as the error value [ub], the primitives the hosts perform
      ([print], the dl* calls, [deref_cstr], [makedyn], [cpp_new], [vtest],
      [cpp_delete], [call_func]) with the checks whose failure C and C++
      leave undefined, their run lemmas, the lifetime invariant [proc_wf]
      with its preservation by each primitive on every exit (all of them
      but [dlclose], which keeps it when no live object comes from its
      handle; the tactic [preserves_auto] composes them), and what an
      observer sees ([observe], [exit_status]).  The log is ghost state,
      read by no primitive, in the style of an I/O trace: a successful
      dlopen logs [ALoad], [new] in a module [AConstruct], a virtual
      [test] [AInvoke], [delete] [ARelease], a call of an exported C
      function [ACall], dlclose [AUnload].
    - [Modules]: foo.cc, bar.cc and baz.cc, each in a Module ([Foo], [Bar],
      [Baz]) with the source's names, and the object file it builds to.
    - [HostCpp]: [main] of dlopen.cc in Module [DlopenCc], one definition
      per step ([open_library] lines 19-20, [resolve_classname] 22-23,
      [announce] 25, [resolve_factory] 27-28, [use_plugin] 30-34,
      [with_module] 22-35, [main] 9-36), and its theorems.
    - [HostC]: [main] of dlopen.c in Module [DlopenC] ([open_library]
      13-14, [resolve_libname] 16-17, [announce] 19, [resolve_function]
      21-22, [with_library] 16-25, [main] 4-26), and its theorems.
    - [Refinement]: the abstraction [abs] of a process into an abstract
      state; for each primitive, that a run which returns logs one
      abstract step ([step_sim]) or keeps the frame, log included
      ([quiet]); composed along the code, that what [use_plugin],
      [with_module] and both [main]s log is a run of the machine
      ([logs], [use_plugin_sim], [main_sim], [c_main_sim]).
    - [Scenarios]: a file system with the three modules, the
      specification's minimal-variant library and malformed modules; the
      specification's concrete scenarios of section 8, checked by
      evaluation; the glibc result; the witnesses of the general theorems.

    ** What the theorems show

    - dlopen.cc, every branch of [main] ([HostCpp]): the successful session
      prints the announcement, the factory's line, then the constructor,
      [test] and destructor lines, returns 0, restores the loader and the
      heap and logs load, construct, invoke, release, unload
      ([main_session]); a load failure prints the loader's diagnostic and
      opens nothing ([main_load_error]); a missing [classname] or
      [Factory] is reported and leaves the module open, the load being the
      only event ([main_no_classname], [main_no_factory]); too few
      arguments ([main_usage]); mistyped exports end in undefined
      behaviour ([main_bad_classname], [main_bad_factory]).
    - dlopen.cc, safety, status and resources: with well-typed exports
      [main] never performs an undefined operation ([main_safe]) and exits
      with status 0 exactly when the session runs and 255 otherwise
      ([main_exit_status], with [session_ok]).  Whatever the module
      exports, the only undefined operation [main] can reach is a type
      confusion on [classname] or [Factory] ([main_ub_only_type]), and
      the lifetime invariant holds on every exit, undefined ones included
      ([main_wf_all], by a chain of triples whose middle assertion
      [loaded_inv] remembers the loader state before line 19).  These
      hold for every loader meeting [LoaderLaws].
    - dlopen.c, every branch of [main] ([HostC]): session (one call logged,
      module left open), load failure without diagnostic, missing
      [libname], missing function with its arguments swapped in the
      message, too few arguments, a non-function symbol called; its
      safety theorem [c_main_safe], its exit status per branch
      ([c_main_exit_status], with [c_session_ok]) and its only undefined
      operations, type confusions on [libname] or on the named function
      ([c_main_ub_only_type]).
    - Refinement ([Refinement]): on well-typed exports dlopen.cc's [main]
      returns and the events it logs are a run of the protocol machine:
      load, construct, invoke, release, unload with status 0, or status
      -1 after loading at most the module ([main_refines]); lines 30-34
      alone log construct, invoke, release, unload, so the module is
      unloaded only once its instance is released ([use_plugin_refines]);
      dlopen.c logs a load and one call, never an unload
      ([c_main_refines]).  On every exit, the undefined ones included:
      in dlopen.cc every construction is followed by its release and the
      module is unloaded exactly when [main] returns 0 ([main_liveness]);
      dlopen.c logs nothing, a load, or a load and one call
      ([c_main_events]).
    - Equivalence: each [main] is the same computation on two argument
      vectors that agree on the count test and the arguments it reads
      ([main_argv_proper], [c_main_argv_proper], [Proper] statements over
      the setoids [cc_argv_equiv] and [c_argv_equiv]).
    - The loader contract is satisfiable: [RefLoader.rl_laws].
    - Concrete runs ([Scenarios]): the specification's foo.so and MyLib
      scenarios, and [main_glibc_rejects]: on glibc, mode 0 is refused, so
      dlopen.cc loads no module at all.

    ** Bounds, fuel, what is not modelled

    No fuel is needed: both hosts are straight-line code with no loop and
    no recursion, every definition is a total function, and the triples
    are total-correctness triples ([main_safe] and [main_refines] state
    that [main] returns).  There is therefore no termination theorem: a
    loop-free model terminates by construction.  The exit status is the
    low eight bits of [main]'s [int] result.  Not modelled: the text of the
    loader's diagnostics beyond the reference loader's (the interface
    treats a diagnostic as an opaque string), dlsym's search of a module's
    dependencies, lazy binding (an object whose dependencies do not resolve
    is not loadable), static constructors run by dlopen, a factory that
    returns null or an object of another module and an exported
    [const char *] holding NULL (the symbol values cannot express them),
    the unused global [myFactory] of dlopen.cc (line 7, shadowed by the
    local of line 13 and never read), concurrency (the program is single
    threaded).

    ** Plan for the next steps

    1. Two sessions in one process: with reference counting, a module
       opened twice stays mapped after the first [dlclose]; the abstract
       machine would count loads per module, and the interleaving of two
       hosts' sessions (section 5 of the specification) could be stated
       on it.  The sources have no second session, so this would model
       the specification rather than the code.
    2. Allocation failure of [new] (std::bad_alloc), which the model's
       unbounded heap does not have. *)

From Stdlib Require Import ZArith String List.
From stdpp Require Import base.

(** ** The state-and-error monad *)

(** A computation over a state [S] either returns a value with a new
    state or stops with an error [E] (in the hosts: an undefined
    operation) in the state reached so far. *)
Inductive sres (S E A : Type) : Type :=
| SOk (a : A) (s : S)
| SErr (e : E) (s : S).
Arguments SOk {S E A} a s.
Arguments SErr {S E A} e s.

Definition ST (S E A : Type) : Type := S -> sres S E A.

Definition st_ret {S E A} (a : A) : ST S E A := fun s => SOk a s.

Definition st_bind {S E A B} (m : ST S E A) (k : A -> ST S E B) : ST S E B :=
  fun s => match m s with
           | SOk a s' => k a s'
           | SErr e s' => SErr e s'
           end.

Definition st_fail {S E A} (e : E) : ST S E A := fun s => SErr e s.
Definition st_get {S E} : ST S E S := fun s => SOk s s.
Definition st_put {S E} (s : S) : ST S E unit := fun _ => SOk tt s.
Definition st_modify {S E} (f : S -> S) : ST S E unit := fun s => SOk tt (f s).

(** The final state of a result, whether it succeeded or not. *)
Definition sres_state {S E A} (r : sres S E A) : S :=
  match r with SOk _ s => s | SErr _ s => s end.

Declare Scope st_scope.
Delimit Scope st_scope with st.
Notation "'do' x <- m ; k" := (st_bind m (fun x => k))
  (at level 20, x name, m at level 100, k at level 200) : st_scope.
Notation "m ;; k" := (st_bind m (fun _ => k))
  (at level 100, k at level 200) : st_scope.
Open Scope st_scope.

(** ** Monad laws, pointwise in the initial state *)

Create Rewrite HintDb st.
Create HintDb dl discriminated.

Section Laws.
Context {S E : Type}.

Lemma st_bind_ret_l {A B} (a : A) (k : A -> ST S E B) s :
  st_bind (st_ret a) k s = k a s.
Proof. reflexivity. Qed.

Lemma st_bind_ret_r {A} (m : ST S E A) s : st_bind m st_ret s = m s.
Proof. unfold st_bind, st_ret. destruct (m s); reflexivity. Qed.

Lemma st_bind_assoc {A B C} (m : ST S E A) (f : A -> ST S E B)
      (g : B -> ST S E C) s :
  st_bind (st_bind m f) g s = st_bind m (fun a => st_bind (f a) g) s.
Proof. unfold st_bind. destruct (m s); reflexivity. Qed.

Lemma st_bind_ok {A B} (m : ST S E A) (k : A -> ST S E B) s a s' :
  m s = SOk a s' -> st_bind m k s = k a s'.
Proof. unfold st_bind. intros ->; reflexivity. Qed.

Lemma st_bind_err {A B} (m : ST S E A) (k : A -> ST S E B) s e s' :
  m s = SErr e s' -> st_bind m k s = SErr e s'.
Proof. unfold st_bind. intros ->; reflexivity. Qed.

(** Two continuations that agree on every result and state give the
    same sequence. *)
Lemma st_bind_ext {A B} (m : ST S E A) (k1 k2 : A -> ST S E B) s :
  (forall a s', k1 a s' = k2 a s') -> st_bind m k1 s = st_bind m k2 s.
Proof. intros Hk. unfold st_bind. destruct (m s); [apply Hk | reflexivity]. Qed.

(** A sequence that returned ran its first part to completion. *)
Lemma st_bind_inv {A B} (m : ST S E A) (k : A -> ST S E B) s b s'' :
  st_bind m k s = SOk b s'' -> exists a s', m s = SOk a s' /\ k a s' = SOk b s''.
Proof. unfold st_bind. destruct (m s) as [a s'|e s']; [eauto|discriminate]. Qed.

Lemma st_ret_inv {A} (a b : A) s s' : st_ret a s = @SOk S E A b s' -> a = b /\ s = s'.
Proof. unfold st_ret. intros Heq. now inversion Heq. Qed.

(** [m] keeps the predicate [P] on the state, on its normal and on its
    error exits. *)
Definition st_preserves {A} (P : S -> Prop) (m : ST S E A) : Prop :=
  forall s, P s -> P (sres_state (m s)).

Lemma st_preserves_ret {A} P (a : A) : st_preserves P (st_ret a).
Proof. intros s Hs; exact Hs. Qed.

Lemma st_preserves_fail {A} P (e : E) : st_preserves (A := A) P (st_fail e).
Proof. intros s Hs; exact Hs. Qed.

Lemma st_preserves_bind {A B} P (m : ST S E A) (k : A -> ST S E B) :
  st_preserves P m -> (forall a, st_preserves P (k a)) ->
  st_preserves P (st_bind m k).
Proof.
  intros Hm Hk s Hs. specialize (Hm s Hs). unfold st_bind.
  destruct (m s) as [a s'|e s']; [apply Hk|]; exact Hm.
Qed.

(** Hoare triples for the monad: from a state satisfying [P], [m]
    returns [a] in a state satisfying [Q a], or stops with [e] in a state
    satisfying [R e].  Every computation of [ST] terminates, so these are
    total-correctness triples. *)
Definition st_triple {A} (P : S -> Prop) (m : ST S E A) (Q : A -> S -> Prop)
    (R : E -> S -> Prop) : Prop :=
  forall s, P s -> match m s with SOk a s' => Q a s' | SErr e s' => R e s' end.

Lemma st_triple_ret {A} P (a : A) Q R :
  (forall s, P s -> Q a s) -> st_triple P (st_ret a) Q R.
Proof. intros H s Hs. exact (H s Hs). Qed.

Lemma st_triple_fail {A} P e (Q : A -> S -> Prop) R :
  (forall s, P s -> R e s) -> st_triple P (st_fail e) Q R.
Proof. intros H s Hs. exact (H s Hs). Qed.

Lemma st_triple_bind {A B} P (m : ST S E A) (k : A -> ST S E B) Q1 Q R :
  st_triple P m Q1 R -> (forall a, st_triple (Q1 a) (k a) Q R) -> st_triple P (st_bind m k) Q R.
Proof.
  intros Hm Hk s Hs. specialize (Hm s Hs). unfold st_bind.
  destruct (m s) as [a s'|e s']; [apply Hk|]; exact Hm.
Qed.

Lemma st_triple_conseq {A} P P' (m : ST S E A) Q Q' R R' :
  st_triple P' m Q' R' -> (forall s, P s -> P' s) ->
  (forall a s, Q' a s -> Q a s) -> (forall e s, R' e s -> R e s) -> st_triple P m Q R.
Proof.
  intros Hm HP HQ HR s Hs. specialize (Hm s (HP s Hs)).
  destruct (m s); [apply HQ | apply HR]; exact Hm.
Qed.

(** Reason from the exact state, with the run lemmas. *)
Lemma st_triple_exact {A} P (m : ST S E A) Q R :
  (forall s, P s -> st_triple (eq s) m Q R) -> st_triple P m Q R.
Proof. intros H s Hs. exact (H s Hs s eq_refl). Qed.

(** An invariant is a triple with the same predicate everywhere. *)
Lemma st_preserves_triple {A} P (m : ST S E A) :
  st_preserves P m <-> st_triple P m (fun _ => P) (fun _ => P).
Proof.
  split; intros H s Hs; specialize (H s Hs); unfold sres_state in *; destruct (m s); exact H.
Qed.

(** [m] runs from [s] without an error. *)
Definition st_safe {A} (m : ST S E A) (s : S) : Prop :=
  exists a s', m s = SOk a s'.
End Laws.

#[export] Hint Rewrite @st_bind_ret_l @st_bind_assoc : st.
#[export] Hint Resolve st_preserves_ret st_preserves_fail st_preserves_bind : dl.

(** Run a computation whose first steps are known: rewrite every [st_bind]
    whose head computation has a known result. *)
Ltac st_step :=
  match goal with
  | H : ?m ?s = SOk _ _ |- context [st_bind ?m _ ?s] => rewrite (st_bind_ok _ _ _ _ _ H)
  | H : ?m ?s = SErr _ _ |- context [st_bind ?m _ ?s] => rewrite (st_bind_err _ _ _ _ _ H)
  end.

(** Run the first step of a sequence with a lemma giving its result; the
    lemma's hypotheses are closed by assumption. *)
Ltac st_seq lem := erewrite st_bind_ok by (eapply lem; simpl; eauto with dl).

(** Split a hypothesis that a sequence returned into its first step and
    the rest. *)
Tactic Notation "st_inv" hyp(H) "as" simple_intropattern(a) ident(Hrun) :=
  apply st_bind_inv in H as (a & ? & Hrun & H); cbv beta iota zeta in H.

Tactic Notation "st_inv" hyp(H) :=
  let Hrun := fresh "Hrun" in st_inv H as ? Hrun.

(** Reduce the continuation a step returned into. *)
Ltac st_red := cbv beta iota zeta.

(** ** Generic lemmas on lists of output lines *)

Lemma app_cons_assoc {A} (l1 l2 : list A) (x : A) :
  (l1 ++ l2) ++ [x] = l1 ++ l2 ++ [x].
Proof. rewrite <- app_assoc; reflexivity. Qed.

(** ** Options *)

Definition is_some {A} (o : option A) : bool :=
  match o with Some _ => true | None => false end.
