(* ===== verification/Plugin.v ===== *)
(** * The plugin interface and the Module Registry Protocol

    What a loadable module exports and what the host may assume of it.
    [plugin.h] is not among the sources: the classes [plugin] and
    [factory] are modelled from the specification (section 4.1) and from
    the way the modules and the host use them ([factory::makedyn] returns a
    [plugin *]; [plugin::test] and the destructor are virtual).  Module
    code only prints, so each method is given by the lines it writes to
    standard output. *)

From Stdlib Require Import String List ZArith.
From stdpp Require Import base gmap strings.
From S2P Require Import Prelude.
Import ListNotations.
Local Open Scope string_scope.

(** ** Classes derived from [plugin] and [factory] *)

(** A class derived from [plugin]: its constructor, its override of the
    virtual [test()] and its (virtual) destructor. *)
Record plugin_class := {
  pc_ctor : list string;
  pc_test : list string;
  pc_dtor : list string
}.

(** A class derived from [factory]: [makedyn()] prints its lines and
    returns [new] of its product class (the body of every factory of the
    repository). *)
Record factory_class := {
  fc_makedyn : list string;
  fc_product : plugin_class
}.

(** ** Exported symbols and object files *)

(** What an exported symbol denotes: a [const char *] variable (the host
    receives its address, a [char **]), a global object of a class derived
    from [factory], or a C function [void f(void)]. *)
Inductive symval :=
| SymCStr (s : string)
| SymFactory (f : factory_class)
| SymFunc (body : list string).

(** A file as the dynamic loader sees it: not a loadable object for this
    platform, or a shared object with its dynamic symbol table and whether
    its own dependencies resolve. *)
Inductive objfile :=
| ObjInvalid
| ObjShared (syms : gmap string symval) (deps_ok : bool).

Definition obj_syms (o : objfile) : gmap string symval :=
  match o with
  | ObjInvalid => ∅
  | ObjShared syms _ => syms
  end.

Definition obj_loadable (o : objfile) : bool :=
  match o with
  | ObjShared _ true => true
  | _ => false
  end.

(** The fixed identifiers of the protocol. *)
Definition classname_sym : string := "classname".
Definition Factory_sym : string := "Factory".
Definition libname_sym : string := "libname".

(** ** The Module Registry Protocol *)

(** A symbol, when exported, has the kind the host casts it to. *)
Definition sym_is_cstr (o : option symval) : bool :=
  match o with Some (SymCStr _) => true | _ => false end.
Definition sym_is_factory (o : option symval) : bool :=
  match o with Some (SymFactory _) => true | _ => false end.
Definition sym_is_func (o : option symval) : bool :=
  match o with Some (SymFunc _) => true | _ => false end.

(** Factory variant: the module exports [classname] as a string and
    [Factory] as a factory object. *)
Class FactoryProtocol (o : objfile) : Prop := {
  fp_classname : sym_is_cstr (obj_syms o !! classname_sym) = true;
  fp_factory : sym_is_factory (obj_syms o !! Factory_sym) = true
}.

(** Minimal variant: the module exports [libname] as a string. *)
Class LibProtocol (o : objfile) : Prop := {
  lp_libname : sym_is_cstr (obj_syms o !! libname_sym) = true
}.

(** The weaker, typing half of the factory protocol: each of the two
    symbols, if it is exported at all, has the expected kind.  This is
    what the C++ host needs to stay clear of undefined behaviour; a
    missing symbol is a reported error, a mistyped one is not. *)
Definition typed_or_absent (is_kind : option symval -> bool) (o : option symval) : bool :=
  match o with None => true | Some _ => is_kind o end.

Definition factory_exports_typed (o : objfile) : bool :=
  typed_or_absent sym_is_cstr (obj_syms o !! classname_sym) &&
  typed_or_absent sym_is_factory (obj_syms o !! Factory_sym).

(** Minimal variant: [libname], if exported, is a string, and the symbol
    named on the command line, if exported, is a function. *)
Definition lib_exports_typed (o : objfile) (fn : string) : bool :=
  typed_or_absent sym_is_cstr (obj_syms o !! libname_sym) &&
  typed_or_absent sym_is_func (obj_syms o !! fn).

Lemma sym_is_cstr_inv o : sym_is_cstr o = true -> exists s, o = Some (SymCStr s).
Proof. destruct o as [[]|]; simpl; try discriminate; eauto. Qed.

Lemma sym_is_factory_inv o : sym_is_factory o = true -> exists f, o = Some (SymFactory f).
Proof. destruct o as [[]|]; simpl; try discriminate; eauto. Qed.

Lemma sym_is_func_inv o : sym_is_func o = true -> exists b, o = Some (SymFunc b).
Proof. destruct o as [[]|]; simpl; try discriminate; eauto. Qed.

Lemma FactoryProtocol_typed o : FactoryProtocol o -> factory_exports_typed o = true.
Proof.
  intros [Hc Hf]. unfold factory_exports_typed.
  apply sym_is_cstr_inv in Hc as [s ->]. apply sym_is_factory_inv in Hf as [f ->].
  reflexivity.
Qed.

Lemma typed_or_absent_cases is_kind o :
  typed_or_absent is_kind o = true -> o = None \/ exists v, o = Some v /\ is_kind (Some v) = true.
Proof. destruct o as [v|]; simpl; [right; eauto | left; reflexivity]. Qed.

Lemma factory_exports_typed_cases o :
  factory_exports_typed o = true ->
  (obj_syms o !! classname_sym = None \/ exists n, obj_syms o !! classname_sym = Some (SymCStr n)) /\
  (obj_syms o !! Factory_sym = None \/ exists f, obj_syms o !! Factory_sym = Some (SymFactory f)).
Proof.
  unfold factory_exports_typed. intros [Hc Hf]%andb_prop.
  split; [destruct (typed_or_absent_cases _ _ Hc) as [|(v & -> & Hv)]
         |destruct (typed_or_absent_cases _ _ Hf) as [|(v & -> & Hv)]]; auto; right.
  - destruct (sym_is_cstr_inv _ Hv) as [n [= ->]]. eauto.
  - destruct (sym_is_factory_inv _ Hv) as [f [= ->]]. eauto.
Qed.

Lemma lib_exports_typed_cases o fn :
  lib_exports_typed o fn = true ->
  (obj_syms o !! libname_sym = None \/ exists n, obj_syms o !! libname_sym = Some (SymCStr n)) /\
  (obj_syms o !! fn = None \/ exists b, obj_syms o !! fn = Some (SymFunc b)).
Proof.
  unfold lib_exports_typed. intros [Hc Hf]%andb_prop.
  split; [destruct (typed_or_absent_cases _ _ Hc) as [|(v & -> & Hv)]
         |destruct (typed_or_absent_cases _ _ Hf) as [|(v & -> & Hv)]]; auto; right.
  - destruct (sym_is_cstr_inv _ Hv) as [n [= ->]]. eauto.
  - destruct (sym_is_func_inv _ Hv) as [b [= ->]]. eauto.
Qed.

#[export] Hint Resolve FactoryProtocol_typed : dl.
