(* ===== verification/Loader.v ===== *)
(** * The dynamic loader interface

    The hosts call four functions of [<dlfcn.h>]: [dlopen], [dlsym],
    [dlclose] and [dlerror].  The loader is not part of the repository:
    this file states what the hosts rely on as a class of operations,
    [Loader], and its contract, [LoaderLaws], the POSIX behaviour of those
    calls on a file system of object files.  The hosts are proved against
    [LoaderLaws] alone; [RefLoader] implements it.

    A handle is the path the object was opened from (glibc hands out one
    handle per loaded object and reuses it when the same object is opened
    again).  Modes are [int]s, kept as [Z]; the constants are glibc's. *)

From Stdlib Require Import String List ZArith Bool.
From stdpp Require Import base gmap strings.
From S2P Require Import Prelude Plugin.
Local Open Scope Z_scope.

Abbreviation handle := string.

(** ** Mode flags of dlopen (glibc, [<bits/dlfcn.h>]) *)

Definition RTLD_LAZY : Z := 1.
Definition RTLD_NOW : Z := 2.
Definition RTLD_BINDING_MASK : Z := 3.
Definition RTLD_GLOBAL : Z := 256.

(** glibc's [_dl_open] refuses a mode in which neither [RTLD_LAZY] nor
    [RTLD_NOW] is set ("invalid mode for dlopen()", [EINVAL]). *)
Definition glibc_mode_ok (mode : Z) : bool :=
  negb (Z.land mode RTLD_BINDING_MASK =? 0).

(** ** The operations *)

Class Loader (L : Type) := {
  (** the object file at a path, as the loader would read it *)
  ld_file : L -> string -> option objfile;
  (** which handles are open, that is, whose object is mapped *)
  ld_is_open : L -> handle -> bool;
  (** the modes this loader accepts *)
  ld_mode_ok : Z -> bool;
  ld_open : string -> Z -> L -> option handle * L;
  ld_sym : handle -> string -> L -> option symval * L;
  ld_close : handle -> L -> Z * L;
  ld_error : L -> option string * L
}.

Definition file_loadable (o : option objfile) : bool :=
  match o with Some f => obj_loadable f | None => false end.

Definition file_sym (o : option objfile) (x : string) : option symval :=
  match o with Some f => obj_syms f !! x | None => None end.

(** ** The contract *)

Class LoaderLaws (L : Type) `{Loader L} : Prop := {
  (** dlopen succeeds exactly on a loadable object with an accepted mode,
      and returns the object's handle *)
  open_result p m s :
    fst (ld_open p m s) = if ld_mode_ok m && file_loadable (ld_file s p) then Some p else None;
  open_file p m s : ld_file (snd (ld_open p m s)) = ld_file s;
  (** dlopen opens its own handle and no other *)
  open_is_open p m s q :
    ld_is_open (snd (ld_open p m s)) q =
      ld_is_open s q || (bool_decide (q = p) && is_some (fst (ld_open p m s)));
  (** dlclose undoes a successful dlopen *)
  open_close p m s h :
    fst (ld_open p m s) = Some h -> snd (ld_close h (snd (ld_open p m s))) = s;
  (** a failed dlopen leaves a diagnostic for dlerror *)
  open_error p m s :
    fst (ld_open p m s) = None -> is_some (fst (ld_error (snd (ld_open p m s)))) = true;
  (** dlsym on an open handle finds the object's exported symbol, and a
      successful lookup changes nothing *)
  sym_result h x s :
    ld_is_open s h = true -> fst (ld_sym h x s) = file_sym (ld_file s h) x;
  sym_found h x s v : fst (ld_sym h x s) = Some v -> snd (ld_sym h x s) = s;
  sym_file h x s : ld_file (snd (ld_sym h x s)) = ld_file s;
  sym_is_open h x s q : ld_is_open (snd (ld_sym h x s)) q = ld_is_open s q;
  (** dlclose may unmap its handle and no other *)
  close_file h s : ld_file (snd (ld_close h s)) = ld_file s;
  close_is_open h s q : q <> h -> ld_is_open (snd (ld_close h s)) q = ld_is_open s q;
  (** dlerror reads and clears the diagnostic *)
  error_file s : ld_file (snd (ld_error s)) = ld_file s;
  error_is_open s q : ld_is_open (snd (ld_error s)) q = ld_is_open s q;
  error_clear s : fst (ld_error (snd (ld_error s))) = None
}.

(** ** Consequences shared by both hosts *)

Section Facts.
Context {L : Type} `{LoaderLaws L}.

Lemma open_ok p m s o :
  ld_mode_ok m = true -> ld_file s p = Some o -> obj_loadable o = true ->
  fst (ld_open p m s) = Some p.
Proof. intros Hm Hf Hl. rewrite open_result, Hm, Hf. simpl. now rewrite Hl. Qed.

Lemma open_fail p m s :
  ld_mode_ok m && file_loadable (ld_file s p) = false -> fst (ld_open p m s) = None.
Proof. intros Hf. now rewrite open_result, Hf. Qed.

Lemma open_keeps_open p m s q :
  ld_is_open s q = true -> ld_is_open (snd (ld_open p m s)) q = true.
Proof. intros Hq. now rewrite open_is_open, Hq. Qed.

Lemma open_opens p m s :
  fst (ld_open p m s) = Some p -> ld_is_open (snd (ld_open p m s)) p = true.
Proof.
  intros Hp. rewrite open_is_open, Hp. simpl.
  rewrite bool_decide_eq_true_2 by reflexivity. apply orb_true_r.
Qed.

Lemma open_fail_is_open p m s q :
  fst (ld_open p m s) = None -> ld_is_open (snd (ld_open p m s)) q = ld_is_open s q.
Proof. intros Hn. rewrite open_is_open, Hn. simpl. now rewrite andb_false_r, orb_false_r. Qed.
End Facts.
