(* ===== verification/RefLoader.v ===== *)
(** * A reference-counting dynamic loader

    An implementation of the [Loader] interface in the manner of glibc's
    [libdl]: a file system of object files, a reference count per open
    object (dlopen of an open object only increments it, dlclose unmaps
    the object when the count drops to zero), and the pending diagnostic
    that [dlerror] returns once.  The set of accepted modes is a parameter:
    [glibc_loader] refuses a mode without [RTLD_LAZY] or [RTLD_NOW], as
    glibc does; [lenient_loader] accepts every mode, as musl does (it does
    not check the binding bits).  [rl_laws] proves that it meets
    [LoaderLaws]. *)

From Stdlib Require Import String List ZArith Bool.
From stdpp Require Import base gmap strings.
From S2P Require Import Prelude Plugin Loader.
Local Open Scope string_scope.

Record rlstate := {
  rl_fs : gmap string objfile;
  rl_refs : gmap string positive;
  rl_err : option string
}.

Definition rl_set_refs (r : gmap string positive) (s : rlstate) : rlstate :=
  {| rl_fs := rl_fs s; rl_refs := r; rl_err := rl_err s |}.

Definition rl_set_err (e : option string) (s : rlstate) : rlstate :=
  {| rl_fs := rl_fs s; rl_refs := rl_refs s; rl_err := e |}.

(** A fresh loader over a file system: nothing open, no diagnostic. *)
Definition rl_init (fs : gmap string objfile) : rlstate :=
  {| rl_fs := fs; rl_refs := ∅; rl_err := None |}.

(** The diagnostic for an object that exists but cannot be loaded. *)
Definition rl_load_diag (p : string) (o : objfile) : string :=
  match o with
  | ObjInvalid => p ++ ": invalid ELF header"
  | ObjShared _ _ => p ++ ": cannot load dependencies: undefined symbol"
  end.

(** One more reference to [p]; one fewer, dropping the entry at zero. *)
Definition rl_incr (r : gmap string positive) (p : string) : gmap string positive :=
  <[p := match r !! p with Some k => Pos.succ k | None => 1%positive end]> r.

Definition rl_decr (r : gmap string positive) (h : string) (n : positive) : gmap string positive :=
  if (n =? 1)%positive then delete h r else <[h := Pos.pred n]> r.

Lemma rl_decr_incr r p n : rl_incr r p !! p = Some n -> rl_decr (rl_incr r p) p n = r.
Proof.
  unfold rl_incr, rl_decr. rewrite lookup_insert_eq. intros [= <-].
  destruct (r !! p) as [k|] eqn:Hp.
  - replace (Pos.succ k =? 1)%positive with false by (symmetry; apply Pos.eqb_neq; lia).
    rewrite Pos.pred_succ, insert_insert_eq. by apply insert_id.
  - simpl. rewrite delete_insert_eq. by apply delete_id.
Qed.

Section RefLoader.
Variable accepts : Z -> bool.

Definition rl_is_open (s : rlstate) (h : string) : bool := is_some (rl_refs s !! h).

Definition rl_open (p : string) (m : Z) (s : rlstate) : option string * rlstate :=
  if accepts m then
    match rl_fs s !! p with
    | None => (None, rl_set_err (Some (p ++ ": cannot open shared object file: No such file or directory")) s)
    | Some o =>
        if obj_loadable o then
          (Some p, rl_set_refs (rl_incr (rl_refs s) p) s)
        else (None, rl_set_err (Some (rl_load_diag p o)) s)
    end
  else (None, rl_set_err (Some (p ++ ": invalid mode for dlopen(): Invalid argument")) s).

Definition rl_sym (h : string) (x : string) (s : rlstate) : option symval * rlstate :=
  if rl_is_open s h then
    match file_sym (rl_fs s !! h) x with
    | Some v => (Some v, s)
    | None => (None, rl_set_err (Some (h ++ ": undefined symbol: " ++ x)) s)
    end
  else (None, rl_set_err (Some "invalid handle") s).

Definition rl_close (h : string) (s : rlstate) : Z * rlstate :=
  match rl_refs s !! h with
  | Some n =>
      (0%Z, rl_set_refs (rl_decr (rl_refs s) h n) s)
  | None => (1%Z, rl_set_err (Some "shared object not open") s)
  end.

Definition rl_error (s : rlstate) : option string * rlstate :=
  (rl_err s, rl_set_err None s).

Definition rl_loader : Loader rlstate := {|
  ld_file s p := rl_fs s !! p;
  ld_is_open := rl_is_open;
  ld_mode_ok := accepts;
  ld_open := rl_open;
  ld_sym := rl_sym;
  ld_close := rl_close;
  ld_error := rl_error
|}.

(** ** The reference loader meets the contract *)

Lemma rl_set_refs_id s : rl_set_refs (rl_refs s) s = s.
Proof. destruct s; reflexivity. Qed.

Lemma rl_open_cases p m s :
  rl_open p m s = (None, rl_set_err (rl_err (snd (rl_open p m s))) s) \/
  (rl_open p m s = (Some p, rl_set_refs (rl_incr (rl_refs s) p) s) /\
   accepts m = true /\ file_loadable (rl_fs s !! p) = true).
Proof.
  unfold rl_open. destruct (accepts m); [|left; reflexivity].
  destruct (rl_fs s !! p) as [o|]; [|left; reflexivity]. simpl.
  destruct (obj_loadable o) eqn:Ho; [right; auto | left; reflexivity].
Qed.

Lemma rl_close_incr p s : rl_close p (rl_set_refs (rl_incr (rl_refs s) p) s) = (0%Z, s).
Proof.
  unfold rl_close. simpl.
  pose proof (lookup_insert_eq (rl_refs s) p
              (match rl_refs s !! p with Some k => Pos.succ k | None => 1%positive end)) as Hn.
  fold (rl_incr (rl_refs s) p) in Hn. rewrite Hn.
  unfold rl_set_refs. simpl. rewrite rl_decr_incr by exact Hn. by destruct s.
Qed.

#[local] Existing Instance rl_loader.

Lemma rl_laws : LoaderLaws rlstate.
Proof.
  split; simpl.
  - intros p m s. unfold rl_open.
    destruct (accepts m); [|reflexivity]. simpl.
    destruct (rl_fs s !! p) as [o|]; [|reflexivity]. simpl.
    by destruct (obj_loadable o).
  - intros p m s. by destruct (rl_open_cases p m s) as [->|[-> _]].
  - intros p m s q. destruct (rl_open_cases p m s) as [->|[-> _]]; simpl.
    + by rewrite andb_false_r, orb_false_r.
    + unfold rl_is_open, rl_incr; simpl. destruct (decide (q = p)) as [->|Hq].
      * rewrite lookup_insert_eq, bool_decide_eq_true_2 by reflexivity.
        by rewrite orb_true_r.
      * rewrite lookup_insert_ne, bool_decide_eq_false_2 by congruence.
        by rewrite orb_false_r.
  - intros p m s h. destruct (rl_open_cases p m s) as [->|[-> _]]; simpl; [discriminate|].
    intros [= <-]. by rewrite rl_close_incr.
  - intros p m s. unfold rl_open.
    destruct (accepts m); [|reflexivity].
    destruct (rl_fs s !! p) as [o|]; [|reflexivity]. simpl.
    by destruct (obj_loadable o).
  - intros h x s Hh. unfold rl_sym. rewrite Hh.
    by destruct (file_sym (rl_fs s !! h) x).
  - intros h x s v. unfold rl_sym.
    destruct (rl_is_open s h); [|discriminate].
    by destruct (file_sym (rl_fs s !! h) x).
  - intros h x s. unfold rl_sym.
    destruct (rl_is_open s h); [|reflexivity].
    by destruct (file_sym (rl_fs s !! h) x).
  - intros h x s q. unfold rl_sym.
    destruct (rl_is_open s h); [|reflexivity].
    by destruct (file_sym (rl_fs s !! h) x).
  - intros h s. unfold rl_close. by destruct (rl_refs s !! h).
  - intros h s q Hq. unfold rl_close, rl_is_open.
    destruct (rl_refs s !! h) as [n|]; [|reflexivity]. simpl. unfold rl_decr.
    destruct (n =? 1)%positive.
    + by rewrite lookup_delete_ne.
    + by rewrite lookup_insert_ne.
  - reflexivity.
  - reflexivity.
  - reflexivity.
Qed.
End RefLoader.

(** The two platforms of the development. *)
Definition glibc_loader : Loader rlstate := rl_loader glibc_mode_ok.
Definition lenient_loader : Loader rlstate := rl_loader (fun _ => true).

Definition glibc_laws : @LoaderLaws rlstate glibc_loader := rl_laws glibc_mode_ok.
Definition lenient_laws : @LoaderLaws rlstate lenient_loader := rl_laws (fun _ => true).
