(* ===== verification/Protocol.v ===== *)
(** * The plugin-loading protocol as an abstract machine

    The specification's contract between a host and its modules
    (sections 3 and 4.2), independent of any code: an abstract state says
    which modules are open and which plugin instances are live, each with
    the module its code lives in; a labelled step relation allows
    - [ALoad h]: open module [h] (it may already be open);
    - [ACall h]: run code of [h], only while [h] is open;
    - [AConstruct ptr h]: a factory of open module [h] creates instance
      [ptr];
    - [AInvoke ptr]: call [test] on a live instance whose module is open;
    - [ARelease ptr]: destroy a live instance, running its module's
      destructor;
    - [AUnload h]: close [h], only once no live instance comes from it
      ("must only be called after every plugin instance ... has been
      released").  With reference counting, [h] may stay open afterwards.
    States are compared up to [aequiv] (same open modules pointwise, same
    live instances), a setoid on which the step and run relations are
    [Proper].  The lifetime invariant of section 3, an instance lives
    strictly inside its module's load lifetime, holds in every state a run
    reaches ([arun_alive_ok], by induction on the run).  [host_protocol]
    is the end-to-end host sequence of section 4.2 with its early exits.
    Liveness on finite traces: [eventually] and [leads_to] (every label of
    one kind is followed by one of another), decided on explicit traces by
    [leads_to_solve]. *)

From Stdlib Require Import String List ZArith Bool Setoid Morphisms.
From stdpp Require Import base gmap strings.
From S2P Require Import Prelude Loader.
Import ListNotations.

Record astate := {
  a_open : handle -> bool;
  a_live : gmap nat handle
}.

Inductive alabel :=
| ALoad (h : handle)
| ACall (h : handle)
| AConstruct (ptr : nat) (h : handle)
| AInvoke (ptr : nat)
| ARelease (ptr : nat)
| AUnload (h : handle).

(** ** Equivalence of abstract states *)

Definition aequiv (s t : astate) : Prop :=
  (forall h, a_open s h = a_open t h) /\ a_live s = a_live t.

#[export] Instance aequiv_equivalence : Equivalence aequiv.
Proof.
  split.
  - intros s. split; reflexivity.
  - intros s t [Ho Hl]. split; [intros h; symmetry; apply Ho | symmetry; exact Hl].
  - intros s t u [Ho1 Hl1] [Ho2 Hl2]. split; [intros h; rewrite Ho1; apply Ho2 | congruence].
Qed.

(** ** Steps *)

Inductive astep : astate -> alabel -> astate -> Prop :=
| AStepLoad h s t :
    (forall q, a_open t q = a_open s q || bool_decide (q = h)) ->
    a_live t = a_live s ->
    astep s (ALoad h) t
| AStepCall h s t :
    a_open s h = true -> aequiv s t ->
    astep s (ACall h) t
| AStepConstruct ptr h s t :
    a_open s h = true -> a_live s !! ptr = None ->
    (forall q, a_open t q = a_open s q) ->
    a_live t = <[ptr := h]> (a_live s) ->
    astep s (AConstruct ptr h) t
| AStepInvoke ptr h s t :
    a_live s !! ptr = Some h -> a_open s h = true -> aequiv s t ->
    astep s (AInvoke ptr) t
| AStepRelease ptr h s t :
    a_live s !! ptr = Some h -> a_open s h = true ->
    (forall q, a_open t q = a_open s q) ->
    a_live t = delete ptr (a_live s) ->
    astep s (ARelease ptr) t
| AStepUnload h s t :
    a_open s h = true ->
    (forall ptr, a_live s !! ptr <> Some h) ->
    (forall q, q <> h -> a_open t q = a_open s q) ->
    a_live t = a_live s ->
    astep s (AUnload h) t.

(** A run: a sequence of steps, up to equivalence at the end. *)
Inductive arun : astate -> list alabel -> astate -> Prop :=
| arun_nil s t : aequiv s t -> arun s [] t
| arun_cons s l t tr u : astep s l t -> arun t tr u -> arun s (l :: tr) u.

#[export] Hint Constructors astep arun : dl.

(** ** The relations respect equivalence *)

Lemma astep_equiv_l s s' l t : aequiv s s' -> astep s' l t -> astep s l t.
Proof.
  intros [Ho Hl] Hst. destruct Hst as [h ? t Hq Hlv|h ? t Hh He|ptr h ? t Hh Hn Hq Hlv
    |ptr h ? t Hp Hh He|ptr h ? t Hp Hh Hq Hlv|h ? t Hh Hno Hq Hlv].
  - constructor; [intros q; rewrite Hq, Ho; reflexivity | congruence].
  - constructor; [rewrite Ho; exact Hh | etransitivity; [split|]; eauto].
  - constructor; [rewrite Ho; exact Hh | rewrite Hl; exact Hn
                 | intros q; rewrite Hq, Ho; reflexivity | rewrite Hlv, Hl; reflexivity].
  - econstructor; [rewrite Hl; exact Hp | rewrite Ho; exact Hh | etransitivity; [split|]; eauto].
  - econstructor; [rewrite Hl; exact Hp | rewrite Ho; exact Hh
                  | intros q; rewrite Hq, Ho; reflexivity | rewrite Hlv, Hl; reflexivity].
  - constructor; [rewrite Ho; exact Hh | rewrite Hl; exact Hno
                 | intros q Hq'; rewrite Hq, Ho by exact Hq'; reflexivity | congruence].
Qed.

Lemma astep_equiv_r s l t t' : astep s l t -> aequiv t t' -> astep s l t'.
Proof.
  intros Hst [Ho Hl]. destruct Hst as [h ? t Hq Hlv|h ? t Hh He|ptr h ? t Hh Hn Hq Hlv
    |ptr h ? t Hp Hh He|ptr h ? t Hp Hh Hq Hlv|h ? t Hh Hno Hq Hlv].
  - constructor; [intros q; rewrite <- Ho; apply Hq | congruence].
  - constructor; [exact Hh | etransitivity; [exact He | split; eauto]].
  - constructor; [exact Hh | exact Hn | intros q; rewrite <- Ho; apply Hq | congruence].
  - econstructor; [exact Hp | exact Hh | etransitivity; [exact He | split; eauto]].
  - econstructor; [exact Hp | exact Hh | intros q; rewrite <- Ho; apply Hq | congruence].
  - constructor; [exact Hh | exact Hno | intros q Hq'; rewrite <- Ho; apply Hq, Hq' | congruence].
Qed.

#[export] Instance astep_proper : Proper (aequiv ==> eq ==> aequiv ==> iff) astep.
Proof.
  intros s s' Hs l ? <- t t' Ht. split; intros Hst.
  - eapply astep_equiv_l; [symmetry; exact Hs|]. eapply astep_equiv_r; eauto.
  - eapply astep_equiv_l; [exact Hs|]. eapply astep_equiv_r; [exact Hst|]. symmetry; exact Ht.
Qed.

Lemma arun_equiv_l s s' tr t : aequiv s s' -> arun s' tr t -> arun s tr t.
Proof.
  intros Hs Hr. destruct Hr as [s' t He|s' l t' tr u Hst Hr].
  - constructor. etransitivity; eauto.
  - econstructor; [eapply astep_equiv_l; eauto | exact Hr].
Qed.

Lemma arun_equiv_r s tr t t' : arun s tr t -> aequiv t t' -> arun s tr t'.
Proof.
  induction 1 as [s t He|s l t tr u Hst Hr IH]; intros Ht.
  - constructor. etransitivity; eauto.
  - econstructor; [exact Hst | apply IH, Ht].
Qed.

#[export] Instance arun_proper : Proper (aequiv ==> eq ==> aequiv ==> iff) arun.
Proof.
  intros s s' Hs tr ? <- t t' Ht. split; intros Hr.
  - eapply arun_equiv_l; [symmetry; exact Hs|]. eapply arun_equiv_r; eauto.
  - eapply arun_equiv_l; [exact Hs|]. eapply arun_equiv_r; [exact Hr|]. symmetry; exact Ht.
Qed.

Lemma arun_app s tr1 t tr2 u : arun s tr1 t -> arun t tr2 u -> arun s (tr1 ++ tr2) u.
Proof.
  induction 1 as [s t He|s l t tr v Hst Hr IH]; intros H2; simpl.
  - eapply arun_equiv_l; eauto.
  - econstructor; eauto.
Qed.

Lemma arun_one s l t : astep s l t -> arun s [l] t.
Proof. intros Hst. econstructor; [exact Hst | constructor; reflexivity]. Qed.

(** ** The lifetime invariant *)

Definition alive_ok (s : astate) : Prop :=
  forall ptr h, a_live s !! ptr = Some h -> a_open s h = true.

#[export] Instance alive_ok_proper : Proper (aequiv ==> iff) alive_ok.
Proof.
  intros s t [Ho Hl]. unfold alive_ok. rewrite Hl.
  split; intros Hok ptr h Hp; [rewrite <- Ho | rewrite Ho]; eapply Hok; eauto.
Qed.

Lemma astep_alive_ok s l t : alive_ok s -> astep s l t -> alive_ok t.
Proof.
  intros Hok Hst ptr g Hp. destruct Hst as [h ? t Hq Hlv|h ? t Hh He|ptr' h ? t Hh Hn Hq Hlv
    |ptr' h ? t Hp' Hh He|ptr' h ? t Hp' Hh Hq Hlv|h ? t Hh Hno Hq Hlv].
  - rewrite Hq, (Hok ptr g) by congruence. reflexivity.
  - rewrite <- (proj1 He). apply (Hok ptr g). rewrite (proj2 He). exact Hp.
  - rewrite Hq. rewrite Hlv in Hp. destruct (decide (ptr = ptr')) as [->|Hne].
    + rewrite lookup_insert_eq in Hp. congruence.
    + rewrite lookup_insert_ne in Hp by congruence. eapply Hok; eauto.
  - rewrite <- (proj1 He). apply (Hok ptr g). rewrite (proj2 He). exact Hp.
  - rewrite Hq. rewrite Hlv in Hp. destruct (decide (ptr = ptr')) as [->|Hne].
    + rewrite lookup_delete_eq in Hp. discriminate.
    + rewrite lookup_delete_ne in Hp by congruence. eapply Hok; eauto.
  - rewrite Hlv in Hp. rewrite Hq; [eapply Hok; eauto|].
    intros ->. exact (Hno ptr Hp).
Qed.

(** Every state a run reaches from a state with the invariant has it. *)
Lemma arun_alive_ok s tr t : alive_ok s -> arun s tr t -> alive_ok t.
Proof.
  intros Hok Hr. induction Hr as [s t He|s l t tr u Hst Hr IH].
  - rewrite <- He. exact Hok.
  - apply IH. eapply astep_alive_ok; eauto.
Qed.

(** Unloading a module while one of its instances is live is not a
    step: a run that constructs and then unloads before releasing is
    impossible. *)
Lemma unload_before_release s ptr h tr t :
  ~ arun s (AConstruct ptr h :: AUnload h :: tr) t.
Proof.
  intros Hr. inversion Hr as [|? ? s1 ? ? Hst1 Hr1]; subst.
  inversion Hr1 as [|? ? s2 ? ? Hst2 _]; subst.
  inversion Hst1; subst. inversion Hst2 as [| | | | |? ? ? _ Hno]; subst.
  apply (Hno ptr). match goal with H : a_live s1 = _ |- _ => rewrite H end.
  apply lookup_insert_eq.
Qed.

(** Constructing an instance, invoking it and releasing it gives back
    the live instances there were before. *)
Lemma construct_release_live s ptr h s1 s2 s3 :
  astep s (AConstruct ptr h) s1 -> astep s1 (AInvoke ptr) s2 ->
  astep s2 (ARelease ptr) s3 -> a_live s3 = a_live s.
Proof.
  intros H1 H2 H3.
  inversion H1 as [| |? ? ? ? _ Hn _ Hv1| | |]; subst.
  inversion H2 as [| | |? ? ? ? _ _ [_ Hl]| |]; subst.
  inversion H3 as [| | | |? ? ? ? _ _ _ Hv3|]; subst.
  rewrite Hv3, <- Hl, Hv1.
  now apply delete_insert_id.
Qed.

(** ** The host sequences of section 4.2 *)

(** What the host does with an open module [h]: construct an instance
    (resolving the name and the factory are lookups and change nothing),
    invoke it, release it, unload the module. *)
Definition plugin_trace (h : handle) (ptr : nat) : list alabel :=
  [AConstruct ptr h; AInvoke ptr; ARelease ptr; AUnload h].

(** The whole sequence, from loading the module. *)
Definition session_trace (lib : handle) (ptr : nat) : list alabel :=
  ALoad lib :: plugin_trace lib ptr.

(** A run of the factory host: either it stops early with status -1,
    having loaded at most its module, or it goes through the whole
    sequence and returns 0. *)
Definition host_protocol (lib : handle) (ptr : nat) (r : Z) (tr : list alabel) : Prop :=
  (r = 0%Z /\ tr = session_trace lib ptr) \/
  (r = (-1)%Z /\ (tr = [] \/ tr = [ALoad lib])).

(** A run of the minimal host: load, call one function of the module and
    return 0 with the module still open, or stop early with status -1. *)
Definition c_host_protocol (lib : handle) (r : Z) (tr : list alabel) : Prop :=
  (r = 0%Z /\ tr = [ALoad lib; ACall lib]) \/
  (r = (-1)%Z /\ (tr = [] \/ tr = [ALoad lib])).

(** ** Liveness over finite traces *)

(** A label satisfying [P] occurs in the trace. *)
Inductive eventually (P : alabel -> Prop) : list alabel -> Prop :=
| ev_now l tr : P l -> eventually P (l :: tr)
| ev_later l tr : eventually P tr -> eventually P (l :: tr).

(** Every label satisfying [P] is followed, later in the trace, by one
    satisfying [Q]. *)
Definition leads_to (P Q : alabel -> Prop) (tr : list alabel) : Prop :=
  forall pre l post, tr = pre ++ l :: post -> P l -> eventually Q post.

Lemma leads_to_nil P Q : leads_to P Q [].
Proof. intros [|x pre] l post Heq; discriminate. Qed.

Lemma leads_to_cons P Q l tr :
  (P l -> eventually Q tr) -> leads_to P Q tr -> leads_to P Q (l :: tr).
Proof.
  intros Hl Htr [|x pre] l' post Heq HP; simpl in Heq; injection Heq as -> Heq.
  - subst. exact (Hl HP).
  - exact (Htr pre l' post Heq HP).
Qed.

(** Decide [leads_to] on an explicit trace of labels. *)
Ltac leads_to_solve :=
  repeat (apply leads_to_cons;
          [intros Hl; first [discriminate Hl | inversion Hl; subst;
             repeat first [apply ev_now; reflexivity | apply ev_later]] |]);
  apply leads_to_nil.

(** On the traces the factory host may produce: an instance is always
    released; the module is unloaded on the successful path and never
    on an early return. *)
Lemma host_protocol_liveness lib n r tr :
  host_protocol lib n r tr ->
  (forall m h, leads_to (eq (AConstruct m h)) (eq (ARelease m)) tr) /\
  (r = 0%Z -> leads_to (eq (ALoad lib)) (eq (AUnload lib)) tr) /\
  (r <> 0%Z -> ~ In (AUnload lib) tr).
Proof.
  intros [[-> ->]|[-> [-> | ->]]]; unfold session_trace, plugin_trace;
    repeat split; intros; try leads_to_solve; try discriminate; simpl; intuition discriminate.
Qed.

(** On those traces, the module is unloaded exactly when the host
    returns 0. *)
Lemma host_protocol_unload lib n r tr :
  host_protocol lib n r tr -> (r = 0%Z <-> In (AUnload lib) tr).
Proof.
  intros [[-> ->]|[-> [-> | ->]]]; unfold session_trace, plugin_trace; simpl;
    intuition (discriminate || auto).
Qed.
