(* ===== verification/Runtime.v ===== *)
(** * The host process

    The state both hosts run in: the dynamic loader's state, the C++ heap
    of plugin objects (address to object, with the next free address),
    and standard output as the list of lines written so far ([cout << ...
    << endl] and [printf("...\n")] each write one line).  Undefined
    behaviour is an error value of the monad: the run stops there, in the
    state reached.  The primitives check exactly the conditions whose
    violation C and C++ leave undefined:
    - [dlsym] and [dlclose] need a handle that is open;
    - module code ([makedyn], constructors, [test], destructors, C
      functions, reading an exported variable) runs only while its object
      is mapped;
    - a plugin pointer must point to a live object;
    - a symbol is used at the type the host casts it to (the protocol has
      no type tag, section 4.2 of the specification);
    - a [char *] written to a stream is not null.
    The process also carries a log ([p_ev]) of the protocol events its
    calls perform, one label of [Protocol] per call that returns: a
    successful dlopen ([ALoad]), [new] in a module ([AConstruct]), a
    virtual [test] ([AInvoke]), [delete] ([ARelease]), a call of an
    exported C function ([ACall]), dlclose ([AUnload]).  The log is ghost
    state: no primitive reads it; it records which calls the host made,
    in their order, so that the refinement theorems are about those calls.
    The file ends with the lifetime invariant [proc_wf] and its
    preservation by each primitive, on normal and undefined exits. *)

From Stdlib Require Import String List ZArith Bool Lia.
From stdpp Require Import base gmap strings.
From S2P Require Import Prelude Plugin Loader Protocol.
Import ListNotations.

(** A live plugin object: its dynamic class and the object its code
    lives in. *)
Record obj := { o_class : plugin_class; o_home : handle }.

Inductive ub :=
| UB_BadHandle (h : handle)
| UB_Unmapped (h : handle)
| UB_Dangling (ptr : nat)
| UB_BadType (sym : string)
| UB_NullString.

Section Runtime.
Context {L : Type} `{Loader L}.

Record proc := {
  p_ld : L;
  p_heap : gmap nat obj;
  p_next : nat;
  p_out : list string;
  p_ev : list alabel
}.

Definition set_ld (l : L) (p : proc) : proc :=
  {| p_ld := l; p_heap := p_heap p; p_next := p_next p; p_out := p_out p; p_ev := p_ev p |}.
Definition set_out (o : list string) (p : proc) : proc :=
  {| p_ld := p_ld p; p_heap := p_heap p; p_next := p_next p; p_out := o; p_ev := p_ev p |}.
Definition set_heap (hp : gmap nat obj) (n : nat) (p : proc) : proc :=
  {| p_ld := p_ld p; p_heap := hp; p_next := n; p_out := p_out p; p_ev := p_ev p |}.
Definition set_ev (ev : list alabel) (p : proc) : proc :=
  {| p_ld := p_ld p; p_heap := p_heap p; p_next := p_next p; p_out := p_out p; p_ev := ev |}.

(** A process that has loaded nothing, allocated nothing and made no
    call yet. *)
Definition proc_init (l : L) : proc :=
  {| p_ld := l; p_heap := ∅; p_next := 1; p_out := []; p_ev := [] |}.

Abbreviation PM A := (ST proc ub A).

(** ** Primitives *)

(** [argv[i]], the i-th command-line argument (both hosts name the
    vector [argc] and the count [argv]). *)
Definition arg (argv : list string) (i : nat) : string := nth i argv EmptyString.

(** Write lines to standard output. *)
Definition emit (lines : list string) : PM unit :=
  fun p => SOk tt (set_out (p_out p ++ lines) p).

Definition print (line : string) : PM unit := emit [line].

(** Record that a call performed protocol event [a]. *)
Definition log (a : alabel) : PM unit :=
  fun p => SOk tt (set_ev (p_ev p ++ [a]) p).

(** A call into the loader. *)
Definition with_ld {A} (f : L -> A * L) : PM A :=
  fun p => SOk (fst (f (p_ld p))) (set_ld (snd (f (p_ld p))) p).

Definition require_open (h : handle) (e : ub) : PM unit :=
  fun p => if ld_is_open (p_ld p) h then SOk tt p else SErr e p.

Definition dlopen (path : string) (mode : Z) : PM (option handle) :=
  do oh <- with_ld (ld_open path mode) ;
  match oh with Some h => log (ALoad h) ;; st_ret (Some h) | None => st_ret None end.

Definition dlsym (h : handle) (x : string) : PM (option symval) :=
  require_open h (UB_BadHandle h) ;; with_ld (ld_sym h x).

Definition dlclose (h : handle) : PM Z :=
  require_open h (UB_BadHandle h) ;;
  do r <- with_ld (ld_close h) ;
  log (AUnload h) ;; st_ret r.

Definition dlerror : PM (option string) := with_ld ld_error.

(** Code of object [h] runs and prints [lines]. *)
Definition run_code (h : handle) (lines : list string) : PM unit :=
  require_open h (UB_Unmapped h) ;; emit lines.

(** A [char *] written to a stream. *)
Definition cstr (o : option string) : PM string :=
  match o with Some s => st_ret s | None => st_fail UB_NullString end.

(** Read an exported [const char *] variable through the [char **]
    that dlsym returned. *)
Definition deref_cstr (h : handle) (x : string) (v : symval) : PM string :=
  require_open h (UB_Unmapped h) ;;
  match v with SymCStr s => st_ret s | _ => st_fail (UB_BadType x) end.

(** operator new: a fresh address for a new object. *)
Definition alloc (o : obj) : PM nat :=
  fun p => SOk (p_next p) (set_heap (<[p_next p := o]> (p_heap p)) (S (p_next p)) p).

(** [new C] evaluated in the code of object [h]: allocate, then run the
    constructor. *)
Definition cpp_new (h : handle) (c : plugin_class) : PM nat :=
  require_open h (UB_Unmapped h) ;;
  do ptr <- alloc {| o_class := c; o_home := h |} ;
  run_code h (pc_ctor c) ;;
  log (AConstruct ptr h) ;;
  st_ret ptr.

(** [f->makedyn()] on the object denoted by symbol [x] of [h]: the
    virtual call runs the factory's body, which prints and returns
    [new] of its product. *)
Definition makedyn (h : handle) (x : string) (v : symval) : PM nat :=
  match v with
  | SymFactory f => run_code h (fc_makedyn f) ;; cpp_new h (fc_product f)
  | _ => st_fail (UB_BadType x)
  end.

Definition load_obj (ptr : nat) : PM obj :=
  fun p => match p_heap p !! ptr with
           | Some o => SOk o p
           | None => SErr (UB_Dangling ptr) p
           end.

(** [ptr->test()]: a virtual call dispatched on the object's class. *)
Definition vtest (ptr : nat) : PM unit :=
  do o <- load_obj ptr ; run_code (o_home o) (pc_test (o_class o)) ;; log (AInvoke ptr).

Definition free (ptr : nat) : PM unit :=
  fun p => SOk tt (set_heap (delete ptr (p_heap p)) (p_next p) p).

(** [delete ptr]: the virtual destructor runs, then the memory is
    released. *)
Definition cpp_delete (ptr : nat) : PM unit :=
  do o <- load_obj ptr ; run_code (o_home o) (pc_dtor (o_class o)) ;; free ptr ;;
  log (ARelease ptr).

(** Call an exported C function [void f(void)] through the pointer
    that dlsym returned. *)
Definition call_func (h : handle) (x : string) (v : symval) : PM unit :=
  match v with
  | SymFunc body => run_code h body ;; log (ACall h)
  | _ => st_fail (UB_BadType x)
  end.
End Runtime.

Arguments proc L : clear implicits.

(** Host code over a loader with state [L]. *)
Abbreviation PM L A := (ST (proc L) ub A).

(** ** What an observer of the process sees *)

(** The exit status of a process whose [main] returned [r]: its low
    eight bits ([return -1] exits with status 255). *)
Definition exit_status (r : Z) : Z := Z.land r 255.

Inductive outcome :=
| Exited (status : Z)
| Undefined (u : ub).

(** The outcome of a run of [main] and the lines it printed. *)
Definition observe {L} (r : sres (proc L) ub Z) : outcome * list string :=
  match r with
  | SOk z p => (Exited (exit_status z), p_out p)
  | SErr u p => (Undefined u, p_out p)
  end.

Lemma exit_status_bounds r : (0 <= exit_status r < 256)%Z.
Proof.
  unfold exit_status. change 255%Z with (Z.ones 8). rewrite Z.land_ones by lia.
  pose proof (Z.mod_pos_bound r (2 ^ 8)). simpl in *. lia.
Qed.

(** ** The lifetime invariant

    A plugin object's code lives in the object it was created by, so every
    live object's home must be open ([lifetime_ok], section 3 of the
    specification); and no live object sits at or above the next free
    address ([heap_fresh]). *)

Section Invariant.
Context {L : Type} `{Loader L}.

Definition lifetime_ok (p : proc L) : Prop :=
  forall ptr o, p_heap p !! ptr = Some o -> ld_is_open (p_ld p) (o_home o) = true.

Definition heap_fresh (p : proc L) : Prop :=
  forall ptr, p_next p <= ptr -> p_heap p !! ptr = None.

Definition proc_wf (p : proc L) : Prop := lifetime_ok p /\ heap_fresh p.

(** No live object was created by the code of [h]. *)
Definition no_objs_of (h : handle) (p : proc L) : Prop :=
  forall ptr o, p_heap p !! ptr = Some o -> o_home o <> h.

Lemma proc_init_wf l : proc_wf (proc_init l).
Proof. split; intros ptr; simpl; [intros o; rewrite lookup_empty; discriminate | intros _; apply lookup_empty]. Qed.
End Invariant.

Section RuntimeFacts.
Context {L : Type} `{LoaderLaws L}.
Implicit Types (p : proc L).

Lemma set_ld_id p : set_ld (p_ld p) p = p.
Proof. destruct p; reflexivity. Qed.

(** *** Run lemmas: the effect of each primitive where it is defined *)

Lemma require_open_ok h e p :
  ld_is_open (p_ld p) h = true -> require_open h e p = SOk tt p.
Proof. unfold require_open. now intros ->. Qed.

Lemma require_open_err h e p :
  ld_is_open (p_ld p) h = false -> require_open h e p = SErr e p.
Proof. unfold require_open. now intros ->. Qed.

Lemma run_code_ok h lines p :
  ld_is_open (p_ld p) h = true ->
  run_code h lines p = SOk tt (set_out (p_out p ++ lines) p).
Proof. intros Hh. unfold run_code. now rewrite (st_bind_ok _ _ _ _ _ (require_open_ok _ _ _ Hh)). Qed.

Lemma dlopen_ok lib m p o :
  ld_mode_ok m = true -> ld_file (p_ld p) lib = Some o -> obj_loadable o = true ->
  dlopen lib m p =
    SOk (Some lib) (set_ev (p_ev p ++ [ALoad lib]) (set_ld (snd (ld_open lib m (p_ld p))) p)).
Proof. intros Hm Hf Hl. unfold dlopen, with_ld, st_bind. now rewrite (open_ok lib m (p_ld p) o). Qed.

Lemma dlopen_fail lib m p :
  ld_mode_ok m && file_loadable (ld_file (p_ld p) lib) = false ->
  dlopen lib m p = SOk None (set_ld (snd (ld_open lib m (p_ld p))) p).
Proof. intros Hf. unfold dlopen, with_ld, st_bind. now rewrite open_fail. Qed.

Lemma dlsym_found h x p v :
  ld_is_open (p_ld p) h = true -> file_sym (ld_file (p_ld p) h) x = Some v ->
  dlsym h x p = SOk (Some v) p.
Proof.
  intros Hh Hx. unfold dlsym. rewrite (st_bind_ok _ _ _ _ _ (require_open_ok _ _ _ Hh)).
  unfold with_ld. rewrite sym_result by exact Hh. rewrite Hx.
  rewrite (sym_found h x (p_ld p) v) by (rewrite sym_result; assumption).
  now rewrite set_ld_id.
Qed.

Lemma dlsym_missing h x p :
  ld_is_open (p_ld p) h = true -> file_sym (ld_file (p_ld p) h) x = None ->
  dlsym h x p = SOk None (set_ld (snd (ld_sym h x (p_ld p))) p).
Proof.
  intros Hh Hx. unfold dlsym. rewrite (st_bind_ok _ _ _ _ _ (require_open_ok _ _ _ Hh)).
  unfold with_ld. now rewrite sym_result, Hx by exact Hh.
Qed.

Lemma deref_cstr_ok h x s p :
  ld_is_open (p_ld p) h = true -> deref_cstr h x (SymCStr s) p = SOk s p.
Proof. intros Hh. unfold deref_cstr. now rewrite (st_bind_ok _ _ _ _ _ (require_open_ok _ _ _ Hh)). Qed.

Lemma deref_cstr_bad h x v p :
  ld_is_open (p_ld p) h = true -> sym_is_cstr (Some v) = false ->
  deref_cstr h x v p = SErr (UB_BadType x) p.
Proof.
  intros Hh Hv. unfold deref_cstr. st_seq require_open_ok.
  destruct v; [discriminate|reflexivity..].
Qed.

Lemma makedyn_bad h x v p :
  sym_is_factory (Some v) = false -> makedyn h x v p = SErr (UB_BadType x) p.
Proof. intros Hv. destruct v; [reflexivity|discriminate|reflexivity]. Qed.

(** [new C] in an open object: the object goes to the next address and
    the constructor prints. *)
Lemma cpp_new_ok h c p :
  ld_is_open (p_ld p) h = true ->
  cpp_new h c p =
    SOk (p_next p)
      {| p_ld := p_ld p;
         p_heap := <[p_next p := {| o_class := c; o_home := h |}]> (p_heap p);
         p_next := S (p_next p);
         p_out := p_out p ++ pc_ctor c;
         p_ev := p_ev p ++ [AConstruct (p_next p) h] |}.
Proof.
  intros Hh. unfold cpp_new. st_seq require_open_ok.
  unfold st_bind at 1, alloc. cbv beta iota. st_seq run_code_ok. reflexivity.
Qed.

Lemma makedyn_ok h x f p :
  ld_is_open (p_ld p) h = true ->
  makedyn h x (SymFactory f) p =
    SOk (p_next p)
      {| p_ld := p_ld p;
         p_heap := <[p_next p := {| o_class := fc_product f; o_home := h |}]> (p_heap p);
         p_next := S (p_next p);
         p_out := p_out p ++ fc_makedyn f ++ pc_ctor (fc_product f);
         p_ev := p_ev p ++ [AConstruct (p_next p) h] |}.
Proof.
  intros Hh. unfold makedyn. rewrite (st_bind_ok _ _ _ _ _ (run_code_ok _ _ _ Hh)).
  rewrite cpp_new_ok by exact Hh. simpl. now rewrite app_assoc.
Qed.

Lemma vtest_ok ptr o p :
  p_heap p !! ptr = Some o -> ld_is_open (p_ld p) (o_home o) = true ->
  vtest ptr p = SOk tt (set_ev (p_ev p ++ [AInvoke ptr]) (set_out (p_out p ++ pc_test (o_class o)) p)).
Proof. intros Hp Hh. unfold vtest, st_bind at 1, load_obj. rewrite Hp. now st_seq run_code_ok. Qed.

Lemma cpp_delete_ok ptr o p :
  p_heap p !! ptr = Some o -> ld_is_open (p_ld p) (o_home o) = true ->
  cpp_delete ptr p =
    SOk tt {| p_ld := p_ld p; p_heap := delete ptr (p_heap p); p_next := p_next p;
              p_out := p_out p ++ pc_dtor (o_class o); p_ev := p_ev p ++ [ARelease ptr] |}.
Proof. intros Hp Hh. unfold cpp_delete, st_bind at 1, load_obj. rewrite Hp. unfold st_bind. now rewrite run_code_ok. Qed.

Lemma dlclose_ok h p :
  ld_is_open (p_ld p) h = true ->
  dlclose h p =
    SOk (fst (ld_close h (p_ld p))) (set_ev (p_ev p ++ [AUnload h]) (set_ld (snd (ld_close h (p_ld p))) p)).
Proof. intros Hh. unfold dlclose. now rewrite (st_bind_ok _ _ _ _ _ (require_open_ok _ _ _ Hh)). Qed.

Lemma call_func_ok h x body p :
  ld_is_open (p_ld p) h = true ->
  call_func h x (SymFunc body) p = SOk tt (set_ev (p_ev p ++ [ACall h]) (set_out (p_out p ++ body) p)).
Proof. intros Hh. unfold call_func. now st_seq run_code_ok. Qed.
End RuntimeFacts.

#[export] Hint Extern 1 (<[_:=_]> _ !! _ = Some _) => rewrite lookup_insert_eq; reflexivity : dl.

(** ** The invariant, primitive by primitive

    Every primitive but [dlclose] keeps [proc_wf] on all its exits,
    normal and undefined: the loader only opens handles ([dlopen]) or
    keeps them ([dlsym], [dlerror]), [new] puts an object of an open
    module at the free address, [delete] removes one.  [dlclose] keeps it
    only when no live object comes from the handle it closes. *)

Section Preservation.
Context {L : Type} `{LoaderLaws L}.
Implicit Types (p : proc L).

(** A new loader state that keeps every open handle open keeps the
    invariant. *)
Lemma proc_wf_set_ld p l :
  (forall q, ld_is_open (p_ld p) q = true -> ld_is_open l q = true) ->
  proc_wf p -> proc_wf (set_ld l p).
Proof. intros Hq [Hlife Hfresh]. split; [intros ptr o Hp; apply Hq; eapply Hlife; eauto | exact Hfresh]. Qed.

Lemma proc_wf_set_out p o : proc_wf p -> proc_wf (set_out o p).
Proof. intros Hwf; exact Hwf. Qed.

Lemma with_ld_preserves {A} (f : L -> A * L) :
  (forall l q, ld_is_open l q = true -> ld_is_open (snd (f l)) q = true) ->
  st_preserves proc_wf (with_ld f).
Proof. intros Hf p Hwf. apply proc_wf_set_ld; [apply Hf | exact Hwf]. Qed.

Lemma emit_preserves lines : st_preserves (proc_wf (L := L)) (emit lines).
Proof. intros p Hwf; exact Hwf. Qed.

Lemma print_preserves line : st_preserves (proc_wf (L := L)) (print line).
Proof. apply emit_preserves. Qed.

Lemma log_preserves a : st_preserves (proc_wf (L := L)) (log a).
Proof. intros p Hwf; exact Hwf. Qed.

Lemma require_open_preserves h e : st_preserves (proc_wf (L := L)) (require_open h e).
Proof. intros p Hwf. unfold require_open. destruct (ld_is_open _ h); exact Hwf. Qed.

Lemma dlopen_preserves lib m : st_preserves (proc_wf (L := L)) (dlopen lib m).
Proof.
  apply st_preserves_bind; [apply with_ld_preserves; intros l q; apply open_keeps_open|].
  intros [h|]; [apply st_preserves_bind; [apply log_preserves | intros _]|]; apply st_preserves_ret.
Qed.

Lemma dlsym_preserves h x : st_preserves (proc_wf (L := L)) (dlsym h x).
Proof.
  apply st_preserves_bind; [apply require_open_preserves|intros _].
  apply with_ld_preserves. intros l q. now rewrite sym_is_open.
Qed.

Lemma dlerror_preserves : st_preserves (proc_wf (L := L)) dlerror.
Proof. apply with_ld_preserves. intros l q. now rewrite error_is_open. Qed.

Lemma cstr_preserves o : st_preserves (proc_wf (L := L)) (cstr o).
Proof. destruct o; [apply st_preserves_ret | apply st_preserves_fail]. Qed.

Lemma run_code_preserves h lines : st_preserves (proc_wf (L := L)) (run_code h lines).
Proof. apply st_preserves_bind; [apply require_open_preserves | intros _; apply emit_preserves]. Qed.

Lemma deref_cstr_preserves h x v : st_preserves (proc_wf (L := L)) (deref_cstr h x v).
Proof.
  apply st_preserves_bind; [apply require_open_preserves|intros _].
  destruct v; auto using st_preserves_ret, st_preserves_fail.
Qed.

Lemma call_func_preserves h x v : st_preserves (proc_wf (L := L)) (call_func h x v).
Proof.
  destruct v; [apply st_preserves_fail | apply st_preserves_fail|].
  apply st_preserves_bind; [apply run_code_preserves | intros _; apply log_preserves].
Qed.

(** [new] in an open module: the object goes to the free address and its
    module is open. *)
Lemma cpp_new_preserves h c : st_preserves (proc_wf (L := L)) (cpp_new h c).
Proof.
  intros p Hwf. destruct (ld_is_open (p_ld p) h) eqn:Ho.
  - rewrite cpp_new_ok by exact Ho. destruct Hwf as [Hlife Hfresh]. split; cbn [sres_state p_heap p_ld p_next].
    + intros ptr o Hp. cbn [sres_state p_heap p_ld] in Hp |- *.
      destruct (decide (ptr = p_next p)) as [->|Hne].
      * rewrite lookup_insert_eq in Hp. injection Hp as <-. exact Ho.
      * rewrite lookup_insert_ne in Hp by congruence. eapply Hlife; eauto.
    + intros ptr Hle. cbn [sres_state p_heap p_next] in Hle |- *.
      rewrite lookup_insert_ne by lia. apply Hfresh. lia.
  - unfold cpp_new. rewrite (st_bind_err _ _ _ _ _ (require_open_err _ _ _ Ho)). exact Hwf.
Qed.

Lemma makedyn_preserves h x v : st_preserves (proc_wf (L := L)) (makedyn h x v).
Proof.
  destruct v as [|f|]; [apply st_preserves_fail| |apply st_preserves_fail].
  apply st_preserves_bind; [apply run_code_preserves | intros _; apply cpp_new_preserves].
Qed.

Lemma load_obj_preserves ptr : st_preserves (proc_wf (L := L)) (load_obj ptr).
Proof. intros p Hwf. unfold load_obj. destruct (p_heap p !! ptr); exact Hwf. Qed.

Lemma vtest_preserves ptr : st_preserves (proc_wf (L := L)) (vtest ptr).
Proof.
  apply st_preserves_bind; [apply load_obj_preserves | intros o].
  apply st_preserves_bind; [apply run_code_preserves | intros _; apply log_preserves].
Qed.

Lemma free_preserves ptr : st_preserves (proc_wf (L := L)) (free ptr).
Proof.
  intros p [Hlife Hfresh]. unfold free. split; cbn [sres_state p_heap p_ld p_next set_heap].
  - intros ptr' o Hp. cbn [sres_state p_heap p_ld set_heap] in Hp |- *. apply lookup_delete_Some in Hp as [_ Hp]. eapply Hlife; eauto.
  - intros ptr' Hle. cbn [sres_state p_heap p_next set_heap] in Hle |- *. rewrite lookup_delete_None. right. apply Hfresh, Hle.
Qed.

Lemma cpp_delete_preserves ptr : st_preserves (proc_wf (L := L)) (cpp_delete ptr).
Proof.
  apply st_preserves_bind; [apply load_obj_preserves | intros o].
  apply st_preserves_bind; [apply run_code_preserves | intros _].
  apply st_preserves_bind; [apply free_preserves | intros _; apply log_preserves].
Qed.

(** [dlclose] of a handle no live object comes from. *)
Lemma dlclose_preserves_wf h p :
  proc_wf p -> no_objs_of h p -> proc_wf (sres_state (dlclose h p)).
Proof.
  intros Hwf Hno. destruct (ld_is_open (p_ld p) h) eqn:Ho.
  - rewrite dlclose_ok by exact Ho. destruct Hwf as [Hlife Hfresh].
    split; [|exact Hfresh]. intros ptr o Hp. cbn [sres_state p_ld p_heap set_ev set_ld] in Hp |- *.
    rewrite close_is_open by exact (Hno ptr o Hp).
    eapply Hlife; eauto.
  - unfold dlclose. rewrite (st_bind_err _ _ _ _ _ (require_open_err _ _ _ Ho)). exact Hwf.
Qed.
End Preservation.

#[export] Hint Resolve emit_preserves print_preserves log_preserves require_open_preserves dlopen_preserves
  dlsym_preserves dlerror_preserves cstr_preserves run_code_preserves deref_cstr_preserves
  call_func_preserves cpp_new_preserves makedyn_preserves load_obj_preserves vtest_preserves
  free_preserves cpp_delete_preserves : dl.

(** Prove [st_preserves P m] by following the structure of [m]. *)
Ltac preserves_auto :=
  repeat first
    [ solve [eauto with dl]
    | match goal with |- forall _, _ => intro end
    | progress cbv beta zeta
    | apply st_preserves_bind
    | match goal with |- st_preserves _ (if ?b then _ else _) => destruct b end
    | match goal with |- st_preserves _ (match ?x with _ => _ end) => destruct x end ].
