(* ===== verification/Modules.v ===== *)
(** * The example plugin modules foo.cc, bar.cc and baz.cc

    Each module defines the string [classname], a class derived from
    [plugin] whose constructor, [test()] and destructor print one line
    each, a factory class whose [makedyn()] prints one line and returns
    [new] of that class, and the global factory object [Factory].  Each is
    modelled in a Module of its own, with the source's names, and the
    shared object built from it exports [classname] and [Factory].

    foo.cc differs from the other two in two ways that do not change its
    behaviour under the host: [foofactory] inherits [factory] privately
    ([class foofactory : factory]) and its [makedyn] returns [foo *]
    (a covariant override).  The host reaches the factory through a cast
    of [void *], which ignores access, and [foo] has [plugin] as its first
    and only base, so the returned pointer is the same address either way. *)

From Stdlib Require Import String List.
From stdpp Require Import base gmap strings.
From S2P Require Import Prelude Plugin.
Import ListNotations.
Local Open Scope string_scope.

(** The shared object of a factory-variant module: it exports the
    [classname] string and the [Factory] object, and loads. *)
Definition factory_so (name : string) (fac : factory_class) : objfile :=
  ObjShared (<[classname_sym := SymCStr name]> {[Factory_sym := SymFactory fac]}) true.

#[export] Instance factory_so_protocol name fac : FactoryProtocol (factory_so name fac).
Proof. split; reflexivity. Qed.

Module Foo.
Definition classname : string := "foo Object".

Definition foo : plugin_class := {|
  pc_ctor := ["    foo created [foo.cc - foo::foo()]"];
  pc_test := ["    foo tested [foo.cc - foo::test()]"];
  pc_dtor := ["    foo destroyed [foo.cc - foo::~foo()]"]
|}.

Definition foofactory : factory_class := {|
  fc_makedyn := ["    making foo [foo.cc foofactory::makedyn()]"];
  fc_product := foo
|}.

(** foo.so: [classname] and [foofactory Factory]. *)
Definition so : objfile := factory_so classname foofactory.
End Foo.

Module Bar.
Definition classname : string := "bar Object".

Definition bar : plugin_class := {|
  pc_ctor := ["    bar created [bar.cc - bar::bar()]"];
  pc_test := ["    bar tested [bar.cc - bar::test()]"];
  pc_dtor := ["    bar destroyed [bar.cc - bar::~bar()]"]
|}.

Definition barfactory : factory_class := {|
  fc_makedyn := ["    making bar [bar.cc barfactory::makedyn()]"];
  fc_product := bar
|}.

Definition so : objfile := factory_so classname barfactory.
End Bar.

Module Baz.
Definition classname : string := "baz Object".

Definition baz : plugin_class := {|
  pc_ctor := ["    baz created [baz.cc - baz::baz()]"];
  pc_test := ["    baz tested [baz.cc - baz::test()]"];
  pc_dtor := ["    baz destroyed [baz.cc - baz::~baz()]"]
|}.

Definition bazfactory : factory_class := {|
  fc_makedyn := ["    making baz [baz.cc bazfactory::makedyn()]"];
  fc_product := baz
|}.

Definition so : objfile := factory_so classname bazfactory.
End Baz.
