(* ===== verification/HostCpp.v ===== *)
(** * The factory-variant host, src/dlopen_cpp_example/dlopen.cc

    [main] of dlopen.cc, one definition per step of the source: the
    argument count check, [dlopen] with its error report, the lookup of
    [classname], the announcement, the lookup of [Factory], and the use
    of the plugin ([makedyn], [test], [delete], [dlclose]).  Each error
    branch prints its line and returns -1, leaving the module open.  The
    host is written against any [Loader]; the theorems assume
    [LoaderLaws] only.  After the theorems on each branch come the
    invariant on every exit, proved with Hoare triples, and the round trip
    of lines 19 and 34. *)

From Stdlib Require Import String List ZArith Bool Ascii Lia Morphisms.
From stdpp Require Import base gmap strings.
From S2P Require Import Prelude Plugin Loader Protocol Runtime Modules.
Import ListNotations.

Module DlopenCc.
Section HostCpp.
Context {L : Type} `{Loader L}.
Local Open Scope string_scope.

Definition usage : string := "Usage: dlopen plugin_to_use.so".

(** The double quote character, escaped with a backslash in the source. *)
Definition dq : string := String (ascii_of_nat 34) EmptyString.

(** [if (!(handle = dlopen(argc[1], 0))) { cout << "Could not open
    library " << argc[1] << " : " << dlerror() << endl; return -1; }] *)
Definition open_library (lib : string) : PM L (option handle) :=
  do oh <- dlopen lib 0 ;
  match oh with
  | Some h => st_ret (Some h)
  | None =>
      do e <- dlerror ;
      do d <- cstr e ;
      print ("Could not open library " ++ lib ++ " : " ++ d) ;;
      st_ret None
  end.

(** [if (!(name = (char ** )dlsym(handle, "classname"))) { cout <<
    "Could not find classname in " << argc[1] << endl; return -1; }] *)
Definition resolve_classname (h : handle) (lib : string) : PM L (option symval) :=
  do os <- dlsym h classname_sym ;
  match os with
  | None => print ("Could not find classname in " ++ lib) ;; st_ret None
  | Some v => st_ret (Some v)
  end.

(** Line 25: read the [classname] string through the pointer and print
    it between double quotes after [creating a], followed by three dots. *)
Definition announce (h : handle) (v : symval) : PM L unit :=
  do name <- deref_cstr h classname_sym v ;
  print ("creating a " ++ dq ++ name ++ dq ++ "...").

(** [if (!(myFactory = (factory * )dlsym(handle, "Factory"))) { cout <<
    "Could not find Factory in " << argc[1] << endl; return -1; }] *)
Definition resolve_factory (h : handle) (lib : string) : PM L (option symval) :=
  do ofac <- dlsym h Factory_sym ;
  match ofac with
  | None => print ("Could not find Factory in " ++ lib) ;; st_ret None
  | Some v => st_ret (Some v)
  end.

(** [myPlugin = myFactory->makedyn(); myPlugin->test(); delete
    myPlugin; dlclose(handle);] *)
Definition use_plugin (h : handle) (fsym : symval) : PM L unit :=
  do ptr <- makedyn h Factory_sym fsym ;
  vtest ptr ;;
  cpp_delete ptr ;;
  do _ <- dlclose h ;
  st_ret tt.

(** Lines 22 to 35, once the module is open. *)
Definition with_module (h : handle) (lib : string) : PM L Z :=
  do on <- resolve_classname h lib ;
  match on with
  | None => st_ret (-1)%Z
  | Some nsym =>
      announce h nsym ;;
      do ofac <- resolve_factory h lib ;
      match ofac with
      | None => st_ret (-1)%Z
      | Some fsym => use_plugin h fsym ;; st_ret 0%Z
      end
  end.

Definition main (argv : list string) : PM L Z :=
  if Nat.ltb (length argv) 2 then print usage ;; st_ret (-1)%Z
  else
    let lib := arg argv 1 in
    do oh <- open_library lib ;
    match oh with
    | None => st_ret (-1)%Z
    | Some h => with_module h lib
    end.
End HostCpp.
End DlopenCc.
Import DlopenCc.

(** ** Each step of [main], on each of its branches *)

Section Steps.
Context {L : Type} `{LoaderLaws L}.
Implicit Types (p : proc L).

(** The loader state after [dlopen(lib, 0)]. *)
Definition opened (lib : string) (l : L) : L := snd (ld_open lib 0%Z l).

Lemma open_library_ok lib p o :
  ld_mode_ok 0%Z = true -> ld_file (p_ld p) lib = Some o -> obj_loadable o = true ->
  open_library lib p = SOk (Some lib) (set_ev (p_ev p ++ [ALoad lib]) (set_ld (opened lib (p_ld p)) p)).
Proof. intros. unfold open_library. st_seq dlopen_ok. reflexivity. Qed.

(** A failed dlopen prints the loader's diagnostic, after dlerror has
    taken it. *)
Lemma open_library_fail lib p :
  ld_mode_ok 0%Z && file_loadable (ld_file (p_ld p) lib) = false ->
  exists d, fst (ld_error (opened lib (p_ld p))) = Some d /\
    open_library lib p =
      SOk None {| p_ld := snd (ld_error (opened lib (p_ld p))); p_heap := p_heap p;
                  p_next := p_next p;
                  p_out := p_out p ++ [("Could not open library " ++ lib ++ " : " ++ d)%string];
                  p_ev := p_ev p |}.
Proof.
  intros Hf. pose proof (open_error lib 0%Z (p_ld p) (open_fail _ _ _ Hf)) as He.
  fold (opened lib (p_ld p)) in He.
  destruct (fst (ld_error (opened lib (p_ld p)))) as [d|] eqn:Hd; [|discriminate].
  exists d. split; [reflexivity|].
  unfold open_library. st_seq dlopen_fail. st_red.
  unfold st_bind at 1, dlerror, with_ld. simpl. fold (opened lib (p_ld p)). rewrite Hd.
  reflexivity.
Qed.

Lemma resolve_classname_found h lib p v :
  ld_is_open (p_ld p) h = true -> file_sym (ld_file (p_ld p) h) classname_sym = Some v ->
  resolve_classname h lib p = SOk (Some v) p.
Proof. intros. unfold resolve_classname. st_seq dlsym_found. reflexivity. Qed.

Lemma resolve_classname_missing h lib p :
  ld_is_open (p_ld p) h = true -> file_sym (ld_file (p_ld p) h) classname_sym = None ->
  resolve_classname h lib p =
    SOk None (set_out (p_out p ++ [("Could not find classname in " ++ lib)%string])
                (set_ld (snd (ld_sym h classname_sym (p_ld p))) p)).
Proof. intros. unfold resolve_classname. st_seq dlsym_missing. reflexivity. Qed.

Lemma resolve_factory_found h lib p v :
  ld_is_open (p_ld p) h = true -> file_sym (ld_file (p_ld p) h) Factory_sym = Some v ->
  resolve_factory h lib p = SOk (Some v) p.
Proof. intros. unfold resolve_factory. st_seq dlsym_found. reflexivity. Qed.

Lemma resolve_factory_missing h lib p :
  ld_is_open (p_ld p) h = true -> file_sym (ld_file (p_ld p) h) Factory_sym = None ->
  resolve_factory h lib p =
    SOk None (set_out (p_out p ++ [("Could not find Factory in " ++ lib)%string])
                (set_ld (snd (ld_sym h Factory_sym (p_ld p))) p)).
Proof. intros. unfold resolve_factory. st_seq dlsym_missing. reflexivity. Qed.

Lemma announce_ok h n p :
  ld_is_open (p_ld p) h = true ->
  announce h (SymCStr n) p =
    SOk tt (set_out (p_out p ++ [("creating a " ++ dq ++ n ++ dq ++ "...")%string]) p).
Proof. intros. unfold announce. st_seq deref_cstr_ok. reflexivity. Qed.

(** The plugin's whole life: made, tested, deleted, then the module
    closed.  The heap is as before and the object's lines are printed in
    order. *)
Lemma use_plugin_ok h f p :
  ld_is_open (p_ld p) h = true -> p_heap p !! p_next p = None ->
  use_plugin h (SymFactory f) p =
    SOk tt {| p_ld := snd (ld_close h (p_ld p)); p_heap := p_heap p;
              p_next := S (p_next p);
              p_out := p_out p ++ fc_makedyn f ++ pc_ctor (fc_product f)
                       ++ pc_test (fc_product f) ++ pc_dtor (fc_product f);
              p_ev := p_ev p ++ plugin_trace h (p_next p) |}.
Proof.
  intros Hh Hfree. unfold use_plugin.
  st_seq makedyn_ok. st_red. st_seq vtest_ok. st_red.
  st_seq cpp_delete_ok. st_red. st_seq dlclose_ok. st_red.
  unfold st_ret. simpl. rewrite delete_insert_eq, delete_id by exact Hfree.
  unfold plugin_trace. now rewrite <- !app_assoc.
Qed.
End Steps.

(** ** [main] on each branch *)

Section MainCpp.
Context {L : Type} `{LoaderLaws L}.
Implicit Types (p : proc L) (argv : list string).

(** What a successful run prints: the announcement, then the factory's
    and the plugin's lines in the order the code runs them. *)
Definition session_lines (name : string) (f : factory_class) : list string :=
  [("creating a " ++ dq ++ name ++ dq ++ "...")%string] ++ fc_makedyn f
    ++ pc_ctor (fc_product f) ++ pc_test (fc_product f) ++ pc_dtor (fc_product f).

Lemma opened_facts lib p o :
  ld_mode_ok 0%Z = true -> ld_file (p_ld p) lib = Some o -> obj_loadable o = true ->
  ld_is_open (opened lib (p_ld p)) lib = true /\
  ld_file (opened lib (p_ld p)) = ld_file (p_ld p).
Proof.
  intros Hm Hf Hl. split; [|apply open_file].
  apply open_opens. exact (open_ok lib 0%Z (p_ld p) o Hm Hf Hl).
Qed.

Lemma main_args (argv : list string) :
  2 <= length argv -> Nat.ltb (length argv) 2 = false.
Proof. apply Nat.ltb_ge. Qed.

(** C7: With fewer than two arguments, [main] prints the usage line and
    returns -1 without calling the loader. *)
Theorem main_usage argv p :
  length argv < 2 -> main argv p = SOk (-1)%Z (set_out (p_out p ++ [usage]) p).
Proof. intros Hn. unfold main. now rewrite (proj2 (Nat.ltb_lt _ _) Hn). Qed.

(** After a successful dlopen, [main] continues with [with_module] on
    the object's handle. *)
Lemma main_loaded argv p o :
  2 <= length argv -> ld_mode_ok 0%Z = true ->
  ld_file (p_ld p) (arg argv 1) = Some o -> obj_loadable o = true ->
  main argv p =
    with_module (arg argv 1) (arg argv 1)
      (set_ev (p_ev p ++ [ALoad (arg argv 1)]) (set_ld (opened (arg argv 1) (p_ld p)) p)).
Proof.
  intros Hlen Hm Hf Hl. unfold main. rewrite main_args by exact Hlen.
  st_red. st_seq open_library_ok. reflexivity.
Qed.

Lemma with_module_session h lib p name f :
  ld_is_open (p_ld p) h = true ->
  file_sym (ld_file (p_ld p) h) classname_sym = Some (SymCStr name) ->
  file_sym (ld_file (p_ld p) h) Factory_sym = Some (SymFactory f) ->
  p_heap p !! p_next p = None ->
  with_module h lib p =
    SOk 0%Z {| p_ld := snd (ld_close h (p_ld p)); p_heap := p_heap p;
               p_next := S (p_next p); p_out := p_out p ++ session_lines name f;
               p_ev := p_ev p ++ plugin_trace h (p_next p) |}.
Proof.
  intros. unfold with_module.
  st_seq resolve_classname_found. st_red.
  st_seq announce_ok. st_red.
  st_seq resolve_factory_found. st_red.
  st_seq use_plugin_ok. st_red.
  unfold session_lines. simpl. now rewrite <- !app_assoc.
Qed.

(** [main] on a module that loads and exports [classname] and [Factory]
    at their kinds: the session, with the state it ends in. *)
Lemma main_session_run argv p o name f :
  2 <= length argv ->
  ld_mode_ok 0%Z = true ->
  ld_file (p_ld p) (arg argv 1) = Some o -> obj_loadable o = true ->
  obj_syms o !! classname_sym = Some (SymCStr name) ->
  obj_syms o !! Factory_sym = Some (SymFactory f) ->
  p_heap p !! p_next p = None ->
  main argv p =
    SOk 0%Z {| p_ld := p_ld p; p_heap := p_heap p; p_next := S (p_next p);
               p_out := p_out p ++ session_lines name f;
               p_ev := p_ev p ++ session_trace (arg argv 1) (p_next p) |}.
Proof.
  intros Hlen Hm Hf Hl Hn Hfac Hfree. rewrite (main_loaded argv p o) by assumption.
  destruct (opened_facts (arg argv 1) p o Hm Hf Hl) as [Hopen Hfile].
  rewrite with_module_session with (name := name) (f := f); simpl;
    try rewrite Hfile, Hf; try assumption.
  unfold opened, session_trace.
  rewrite (open_close (arg argv 1) 0%Z (p_ld p) (arg argv 1))
    by exact (open_ok _ 0%Z (p_ld p) o Hm Hf Hl).
  now rewrite <- app_assoc.
Qed.

(** C1: When the module at argv[1] loads and exports classname as a string and
    Factory as a factory object, dlopen.cc's main returns 0 after printing
    the announcement, the factory's makedyn lines, the constructor, test
    and destructor lines in that order, leaves the loader state and
    the heap exactly as they were, and its calls log the load, the
    construction, test and release of one instance at the next address,
    and the unload, in that order. *)
Theorem main_session argv p o name f :
  2 <= length argv ->
  ld_mode_ok 0%Z = true ->
  ld_file (p_ld p) (arg argv 1) = Some o -> obj_loadable o = true ->
  obj_syms o !! classname_sym = Some (SymCStr name) ->
  obj_syms o !! Factory_sym = Some (SymFactory f) ->
  p_heap p !! p_next p = None ->
  main argv p =
    SOk 0%Z {| p_ld := p_ld p; p_heap := p_heap p; p_next := S (p_next p);
               p_out := p_out p ++ session_lines name f;
               p_ev := p_ev p ++ session_trace (arg argv 1) (p_next p) |}.
Proof. apply main_session_run. Qed.

(** A failed [open_library] ends [main] with -1 in the state it left. *)
Lemma main_not_loaded argv p p' :
  2 <= length argv -> open_library (arg argv 1) p = SOk None p' -> main argv p = SOk (-1)%Z p'.
Proof.
  intros Hlen Hrun. unfold main. rewrite main_args by exact Hlen. st_red.
  now rewrite (st_bind_ok _ _ _ _ _ Hrun).
Qed.

(** The loader state after a failed dlopen and dlerror has the same open
    handles as before. *)
Lemma load_error_is_open lib p q :
  ld_mode_ok 0%Z && file_loadable (ld_file (p_ld p) lib) = false ->
  ld_is_open (snd (ld_error (opened lib (p_ld p)))) q = ld_is_open (p_ld p) q.
Proof. intros Hf. rewrite error_is_open. apply open_fail_is_open, open_fail, Hf. Qed.

(** C4: When dlopen fails (mode refused or file missing or not loadable),
    dlopen.cc's main prints 'Could not open library <path> : <diagnostic>'
    with the diagnostic taken from dlerror, returns -1, resolves no symbol,
    leaves every handle as it was and logs no protocol event. *)
Theorem main_load_error argv p :
  2 <= length argv ->
  ld_mode_ok 0%Z && file_loadable (ld_file (p_ld p) (arg argv 1)) = false ->
  exists d,
    fst (ld_error (opened (arg argv 1) (p_ld p))) = Some d /\
    main argv p =
      SOk (-1)%Z {| p_ld := snd (ld_error (opened (arg argv 1) (p_ld p)));
                    p_heap := p_heap p; p_next := p_next p;
                    p_out := p_out p ++ [("Could not open library " ++ arg argv 1 ++ " : " ++ d)%string];
                    p_ev := p_ev p |} /\
    (forall q, ld_is_open (snd (ld_error (opened (arg argv 1) (p_ld p)))) q = ld_is_open (p_ld p) q).
Proof.
  intros Hlen Hf. destruct (open_library_fail (arg argv 1) p Hf) as (d & Hd & Hrun).
  exists d. split; [exact Hd|]. split.
  - unfold main. rewrite main_args by exact Hlen. st_red.
    rewrite (st_bind_ok _ _ _ _ _ Hrun). reflexivity.
  - intros q. rewrite error_is_open. apply open_fail_is_open, open_fail, Hf.
Qed.

Lemma with_module_no_classname h lib p :
  ld_is_open (p_ld p) h = true -> file_sym (ld_file (p_ld p) h) classname_sym = None ->
  with_module h lib p =
    SOk (-1)%Z (set_out (p_out p ++ [("Could not find classname in " ++ lib)%string])
                  (set_ld (snd (ld_sym h classname_sym (p_ld p))) p)).
Proof. intros. unfold with_module. st_seq resolve_classname_missing. reflexivity. Qed.

Lemma with_module_no_factory h lib p name :
  ld_is_open (p_ld p) h = true ->
  file_sym (ld_file (p_ld p) h) classname_sym = Some (SymCStr name) ->
  file_sym (ld_file (p_ld p) h) Factory_sym = None ->
  with_module h lib p =
    SOk (-1)%Z (set_out (p_out p ++ [("creating a " ++ dq ++ name ++ dq ++ "...")%string;
                                     ("Could not find Factory in " ++ lib)%string])
                  (set_ld (snd (ld_sym h Factory_sym (p_ld p))) p)).
Proof.
  intros. unfold with_module.
  st_seq resolve_classname_found. st_red. st_seq announce_ok. st_red.
  st_seq resolve_factory_missing. simpl. now rewrite <- app_assoc.
Qed.

(** C5: When the loaded module does not export classname, dlopen.cc's main
    prints 'Could not find classname in <path>', returns -1 before looking
    up Factory, and leaves the module open: the only event it logs is
    the load. *)
Theorem main_no_classname argv p o :
  2 <= length argv -> ld_mode_ok 0%Z = true ->
  ld_file (p_ld p) (arg argv 1) = Some o -> obj_loadable o = true ->
  obj_syms o !! classname_sym = None ->
  main argv p =
    SOk (-1)%Z {| p_ld := snd (ld_sym (arg argv 1) classname_sym (opened (arg argv 1) (p_ld p)));
                  p_heap := p_heap p; p_next := p_next p;
                  p_out := p_out p ++ [("Could not find classname in " ++ arg argv 1)%string];
                  p_ev := p_ev p ++ [ALoad (arg argv 1)] |} /\
  ld_is_open (snd (ld_sym (arg argv 1) classname_sym (opened (arg argv 1) (p_ld p)))) (arg argv 1) = true.
Proof.
  intros Hlen Hm Hf Hl Hn. rewrite (main_loaded argv p o) by assumption.
  destruct (opened_facts (arg argv 1) p o Hm Hf Hl) as [Hopen Hfile].
  rewrite with_module_no_classname; simpl; try rewrite Hfile, Hf; try assumption.
  split; [reflexivity|]. now rewrite sym_is_open.
Qed.

(** C6: When the loaded module exports classname but not Factory, dlopen.cc's
    main prints the announcement and 'Could not find Factory in <path>',
    returns -1 without creating an instance, and leaves the module open:
    the only event it logs is the load. *)
Theorem main_no_factory argv p o name :
  2 <= length argv -> ld_mode_ok 0%Z = true ->
  ld_file (p_ld p) (arg argv 1) = Some o -> obj_loadable o = true ->
  obj_syms o !! classname_sym = Some (SymCStr name) ->
  obj_syms o !! Factory_sym = None ->
  main argv p =
    SOk (-1)%Z {| p_ld := snd (ld_sym (arg argv 1) Factory_sym (opened (arg argv 1) (p_ld p)));
                  p_heap := p_heap p; p_next := p_next p;
                  p_out := p_out p ++ [("creating a " ++ dq ++ name ++ dq ++ "...")%string;
                                       ("Could not find Factory in " ++ arg argv 1)%string];
                  p_ev := p_ev p ++ [ALoad (arg argv 1)] |} /\
  ld_is_open (snd (ld_sym (arg argv 1) Factory_sym (opened (arg argv 1) (p_ld p)))) (arg argv 1) = true.
Proof.
  intros Hlen Hm Hf Hl Hn Hfac. rewrite (main_loaded argv p o) by assumption.
  destruct (opened_facts (arg argv 1) p o Hm Hf Hl) as [Hopen Hfile].
  rewrite (with_module_no_factory _ _ _ name); simpl; try rewrite Hfile, Hf; try assumption.
  split; [reflexivity|]. now rewrite sym_is_open.
Qed.

(** [main] on a module whose [classname] is not a string. *)
Lemma main_bad_classname_run argv p o v :
  2 <= length argv -> ld_mode_ok 0%Z = true ->
  ld_file (p_ld p) (arg argv 1) = Some o -> obj_loadable o = true ->
  obj_syms o !! classname_sym = Some v -> sym_is_cstr (Some v) = false ->
  exists p', main argv p = SErr (UB_BadType classname_sym) p' /\ p_ev p' = p_ev p ++ [ALoad (arg argv 1)].
Proof.
  intros Hlen Hm Hf Hl Hn Hv. rewrite (main_loaded argv p o) by assumption.
  destruct (opened_facts (arg argv 1) p o Hm Hf Hl) as [Hopen Hfile].
  assert (file_sym (ld_file (opened (arg argv 1) (p_ld p)) (arg argv 1)) classname_sym = Some v)
    by (rewrite Hfile, Hf; exact Hn).
  eexists. split; [|shelve]. unfold with_module. st_seq resolve_classname_found. st_red.
  unfold announce. rewrite st_bind_assoc. erewrite st_bind_err; [reflexivity|].
  apply deref_cstr_bad; assumption.
Unshelve. reflexivity.
Qed.

(** C8: The protocol has no type tag: a [classname] that is not a string is
    read as one anyway. *)
Theorem main_bad_classname argv p o v :
  2 <= length argv -> ld_mode_ok 0%Z = true ->
  ld_file (p_ld p) (arg argv 1) = Some o -> obj_loadable o = true ->
  obj_syms o !! classname_sym = Some v -> sym_is_cstr (Some v) = false ->
  exists p', main argv p = SErr (UB_BadType classname_sym) p'.
Proof. intros. edestruct main_bad_classname_run as (p' & Hr & _); eauto. Qed.

(** [main] on a module whose [Factory] is not a factory object. *)
Lemma main_bad_factory_run argv p o name v :
  2 <= length argv -> ld_mode_ok 0%Z = true ->
  ld_file (p_ld p) (arg argv 1) = Some o -> obj_loadable o = true ->
  obj_syms o !! classname_sym = Some (SymCStr name) ->
  obj_syms o !! Factory_sym = Some v -> sym_is_factory (Some v) = false ->
  exists p', main argv p = SErr (UB_BadType Factory_sym) p' /\ p_ev p' = p_ev p ++ [ALoad (arg argv 1)].
Proof.
  intros Hlen Hm Hf Hl Hn Hfac Hv. rewrite (main_loaded argv p o) by assumption.
  destruct (opened_facts (arg argv 1) p o Hm Hf Hl) as [Hopen Hfile].
  assert (file_sym (ld_file (opened (arg argv 1) (p_ld p)) (arg argv 1)) classname_sym
          = Some (SymCStr name)) by (rewrite Hfile, Hf; exact Hn).
  assert (file_sym (ld_file (opened (arg argv 1) (p_ld p)) (arg argv 1)) Factory_sym = Some v)
    by (rewrite Hfile, Hf; exact Hfac).
  eexists. split; [|shelve]. unfold with_module.
  st_seq resolve_classname_found. st_red. st_seq announce_ok. st_red.
  st_seq resolve_factory_found. st_red.
  unfold use_plugin. rewrite !st_bind_assoc. erewrite st_bind_err; [reflexivity|].
  apply makedyn_bad; assumption.
  Unshelve. reflexivity.
Qed.

(** C9: Likewise a [Factory] that is not a factory object is called as one. *)
Theorem main_bad_factory argv p o name v :
  2 <= length argv -> ld_mode_ok 0%Z = true ->
  ld_file (p_ld p) (arg argv 1) = Some o -> obj_loadable o = true ->
  obj_syms o !! classname_sym = Some (SymCStr name) ->
  obj_syms o !! Factory_sym = Some v -> sym_is_factory (Some v) = false ->
  exists p', main argv p = SErr (UB_BadType Factory_sym) p'.
Proof. intros. edestruct main_bad_factory_run as (p' & Hr & _); eauto. Qed.

(** When dlopen.cc's [main] runs its session: two arguments at least,
    a module that loads with mode 0, and both of its symbols exported. *)
Definition session_ok (argv : list string) (l : L) : bool :=
  negb (Nat.ltb (length argv) 2) &&
  (ld_mode_ok 0%Z && file_loadable (ld_file l (arg argv 1))) &&
  is_some (file_sym (ld_file l (arg argv 1)) classname_sym) &&
  is_some (file_sym (ld_file l (arg argv 1)) Factory_sym).

Lemma session_ok_short argv l : length argv < 2 -> session_ok argv l = false.
Proof. intros Hn. unfold session_ok. now rewrite (proj2 (Nat.ltb_lt _ _) Hn). Qed.

Lemma session_ok_unloaded argv l :
  ld_mode_ok 0%Z && file_loadable (ld_file l (arg argv 1)) = false -> session_ok argv l = false.
Proof. intros Hf. unfold session_ok. rewrite Hf. now destruct (negb _). Qed.

Lemma session_ok_loaded argv l o :
  2 <= length argv -> ld_mode_ok 0%Z = true -> ld_file l (arg argv 1) = Some o ->
  obj_loadable o = true ->
  session_ok argv l = is_some (obj_syms o !! classname_sym) && is_some (obj_syms o !! Factory_sym).
Proof.
  intros Hlen Hm Hf Hl. unfold session_ok. rewrite main_args, Hm, Hf by exact Hlen.
  cbn [file_loadable file_sym]. now rewrite Hl.
Qed.

(** Close a frame goal about a known final state. *)
Ltac frame_done :=
  do 2 eexists; split; [reflexivity|]; simpl; split; [reflexivity|];
  split; [reflexivity|]; split; [lia|auto].

(** Every run of [main] on well-typed exports returns 0 when the session
    can run ([session_ok]) and -1 otherwise, leaves the heap as it found
    it, and closes no handle that was open before it started. *)
Lemma main_frame argv p :
  p_heap p !! p_next p = None ->
  (forall o, ld_file (p_ld p) (arg argv 1) = Some o -> factory_exports_typed o = true) ->
  exists r p', main argv p = SOk r p' /\ r = (if session_ok argv (p_ld p) then 0 else -1)%Z /\
    p_heap p' = p_heap p /\ p_next p <= p_next p' /\
    (forall q, ld_is_open (p_ld p) q = true -> ld_is_open (p_ld p') q = true).
Proof.
  intros Hfree Htyped.
  destruct (Nat.lt_ge_cases (length argv) 2) as [Hlt|Hlen].
  { rewrite session_ok_short by exact Hlt.
    unfold main. rewrite (proj2 (Nat.ltb_lt _ _) Hlt). frame_done. }
  destruct (ld_mode_ok 0%Z && file_loadable (ld_file (p_ld p) (arg argv 1))) eqn:Hok.
  2:{ destruct (open_library_fail (arg argv 1) p Hok) as (d & _ & Hrun).
      rewrite session_ok_unloaded by exact Hok.
      rewrite (main_not_loaded argv p _ Hlen Hrun). frame_done.
      intros q. now rewrite load_error_is_open. }
  apply andb_prop in Hok as [Hm Hl].
  destruct (ld_file (p_ld p) (arg argv 1)) as [o|] eqn:Hf; [|discriminate].
  rewrite (session_ok_loaded argv (p_ld p) o) by assumption.
  rewrite (main_loaded argv p o) by assumption.
  destruct (opened_facts (arg argv 1) p o Hm Hf Hl) as [Hopen Hfile].
  assert (Hgrow : forall x q, ld_is_open (p_ld p) q = true ->
            ld_is_open (snd (ld_sym (arg argv 1) x (opened (arg argv 1) (p_ld p)))) q = true)
    by (intros x q Hq; rewrite sym_is_open; now apply open_keeps_open).
  destruct (factory_exports_typed_cases o (Htyped o eq_refl)) as [[Hn|[n Hn]] [Hfac|[f Hfac]]];
    rewrite Hn, Hfac.
  1,2: rewrite with_module_no_classname; simpl; try rewrite Hfile, Hf; try assumption; frame_done.
  - rewrite (with_module_no_factory _ _ _ n); simpl; try rewrite Hfile, Hf; try assumption.
    frame_done.
  - rewrite (with_module_session _ _ _ n f); simpl; try rewrite Hfile, Hf; try assumption.
    unfold opened.
    rewrite (open_close (arg argv 1) 0%Z (p_ld p) (arg argv 1))
      by exact (open_ok _ 0%Z (p_ld p) o Hm Hf Hl).
    frame_done.
Qed.

(** C2: Safety: when the object at [argv[1]] exports [classname] and
    [Factory], if at all, at the types the host casts them to, [main]
    performs no undefined operation, whatever the arguments, the file
    system and the loader's platform. *)
Theorem main_safe argv p :
  p_heap p !! p_next p = None ->
  (forall o, ld_file (p_ld p) (arg argv 1) = Some o -> factory_exports_typed o = true) ->
  st_safe (main argv) p.
Proof.
  intros Hfree Htyped. destruct (main_frame argv p Hfree Htyped) as (r & p' & Hr & _).
  exists r, p'. exact Hr.
Qed.

(** The undefined exits of [main] from a free next address: a mistyped
    [classname] or [Factory], after the module was loaded and before
    anything else happened to the protocol. *)
Lemma main_err argv p u p' :
  p_heap p !! p_next p = None -> main argv p = SErr u p' ->
  (u = UB_BadType classname_sym \/ u = UB_BadType Factory_sym) /\
  p_ev p' = p_ev p ++ [ALoad (arg argv 1)].
Proof.
  intros Hfree Hr.
  destruct (Nat.lt_ge_cases (length argv) 2) as [Hlt|Hlen].
  { unfold main in Hr. rewrite (proj2 (Nat.ltb_lt _ _) Hlt) in Hr. discriminate. }
  destruct (ld_mode_ok 0%Z && file_loadable (ld_file (p_ld p) (arg argv 1))) eqn:Hok.
  2:{ destruct (open_library_fail (arg argv 1) p Hok) as (d & _ & Hrun).
      rewrite (main_not_loaded argv p _ Hlen Hrun) in Hr. discriminate. }
  apply andb_prop in Hok as [Hm Hl].
  destruct (ld_file (p_ld p) (arg argv 1)) as [o|] eqn:Hf; [|discriminate].
  destruct (opened_facts (arg argv 1) p o Hm Hf Hl) as [Hopen Hfile].
  destruct (obj_syms o !! classname_sym) as [[n|f|b]|] eqn:Hn.
  2,3: destruct (main_bad_classname_run argv p o _ Hlen Hm Hf Hl Hn eq_refl) as (p'' & Hbad & Hev);
       rewrite Hbad in Hr; injection Hr as <- <-; auto.
  2:{ rewrite (main_loaded argv p o), with_module_no_classname in Hr; simpl;
      try rewrite Hfile, Hf; try assumption; discriminate. }
  destruct (obj_syms o !! Factory_sym) as [[m|f|b]|] eqn:Hfac.
  1,3: destruct (main_bad_factory_run argv p o n _ Hlen Hm Hf Hl Hn Hfac eq_refl) as (p'' & Hbad & Hev);
       rewrite Hbad in Hr; injection Hr as <- <-; auto.
  - rewrite (main_session_run argv p o n f) in Hr by assumption. discriminate.
  - rewrite (main_loaded argv p o), (with_module_no_factory _ _ _ n) in Hr; simpl;
      try rewrite Hfile, Hf; try assumption; discriminate.
Qed.

(** C22: Classification of undefined behaviour: from a process whose next
    address is free, the only undefined operation dlopen.cc's main can
    perform, whatever the module exports, is reading [classname] as a
    string when it is not one or calling [Factory] as a factory when it is
    not one.  It never uses a handle that is not open, never runs code of
    an unmapped module, never follows a dangling plugin pointer and never
    prints a null diagnostic. *)
Theorem main_ub_only_type argv p u p' :
  p_heap p !! p_next p = None ->
  main argv p = SErr u p' -> u = UB_BadType classname_sym \/ u = UB_BadType Factory_sym.
Proof. intros Hfree Hr. exact (proj1 (main_err argv p u p' Hfree Hr)). Qed.

(** Two argument vectors dlopen.cc cannot tell apart: both have fewer
    than two entries or neither has, and they agree on [argv[1]]. *)
Definition cc_argv_equiv (argv argv' : list string) : Prop :=
  Nat.ltb (length argv) 2 = Nat.ltb (length argv') 2 /\ arg argv 1 = arg argv' 1.

#[export] Instance cc_argv_equiv_equivalence : Equivalence cc_argv_equiv.
Proof. split; [intros a; split; reflexivity | intros a b [H1 H2]; split; congruence
              | intros a b c [H1 H2] [H3 H4]; split; congruence]. Qed.

(** C24: dlopen.cc reads nothing of its command line but the argument
    count test and argv[1]: main is the same computation on any two
    argument vectors [cc_argv_equiv] relates, so the program name and
    every argument after the module path are ignored. *)
Theorem main_argv_proper : Proper (cc_argv_equiv ==> eq) (main (L := L)).
Proof. intros argv argv' [Hn Ha]. unfold main. now rewrite Hn, Ha. Qed.

(** ** What [main] returns *)

(** C20: The exit status of dlopen.cc, branch by branch: on well-typed
    exports the process exits (no undefined operation) with status 0
    exactly when the session runs (two arguments, the module loads with
    mode 0 and exports both classname and Factory), and with status 255,
    the low eight bits of [return -1], on every other branch. *)
Theorem main_exit_status argv p :
  p_heap p !! p_next p = None ->
  (forall o, ld_file (p_ld p) (arg argv 1) = Some o -> factory_exports_typed o = true) ->
  exists out, observe (main argv p) = (Exited (if session_ok argv (p_ld p) then 0 else 255)%Z, out).
Proof.
  intros Hfree Htyped. destruct (main_frame argv p Hfree Htyped) as (r & p' & Hr & -> & _).
  rewrite Hr. eexists. now destruct (session_ok argv (p_ld p)).
Qed.
End MainCpp.

(** ** The lifetime invariant on every exit

    [main] keeps [proc_wf] on all its exits, the undefined ones included,
    whatever the module exports.  The step that needs care is line 34:
    [dlclose] may unmap the module, so it keeps the invariant only because
    the loader state it returns to is the one before line 19 ([open_close])
    and the instance made at line 30 was deleted at line 32.  The proof is
    a chain of Hoare triples ([st_triple]) whose middle assertion,
    [loaded_inv], remembers that loader state. *)

Section WfAll.
Context {L : Type} `{LoaderLaws L}.
Implicit Types (p : proc L).

(** [lib] was opened over the loader state [l0], and the process would
    be well formed over [l0]. *)
Definition loaded_inv (lib : string) (l0 : L) p : Prop :=
  fst (ld_open lib 0%Z l0) = Some lib /\ p_ld p = opened lib l0 /\ proc_wf (set_ld l0 p).

Lemma set_ld_set_ld p l : set_ld (p_ld p) (set_ld l p) = p.
Proof. destruct p; reflexivity. Qed.

Lemma loaded_inv_open lib l0 p : loaded_inv lib l0 p -> ld_is_open (p_ld p) lib = true.
Proof. intros (Hr & -> & _). apply open_opens, Hr. Qed.

Lemma loaded_inv_wf lib l0 p : loaded_inv lib l0 p -> proc_wf p.
Proof.
  intros (Hr & Hl & Hwf). rewrite <- (set_ld_set_ld p l0).
  apply proc_wf_set_ld; [|exact Hwf]. intros q Hq. rewrite Hl. apply open_keeps_open, Hq.
Qed.

Lemma loaded_inv_out lib l0 p o : loaded_inv lib l0 p -> loaded_inv lib l0 (set_out o p).
Proof. intros HI; exact HI. Qed.

(** Lines 22-23 and 27-28: a lookup that keeps the invariant when it
    finds the symbol, and leaves a well-formed process when it prints the
    error. *)
Lemma lookup_triple lib l0 x msg :
  st_triple (loaded_inv lib l0)
    (do os <- dlsym lib x ;
     match os with None => print msg ;; st_ret None | Some v => st_ret (Some v) end)
    (fun o p => match o with None => proc_wf p | Some _ => loaded_inv lib l0 p end)
    (fun _ p => proc_wf p).
Proof.
  apply (st_triple_bind _ _ _ (fun os p => match os with None => proc_wf p | Some _ => loaded_inv lib l0 p end)).
  - apply st_triple_exact. intros p HI s <-. pose proof (loaded_inv_open _ _ _ HI) as Ho.
    destruct (file_sym (ld_file (p_ld p) lib) x) as [v|] eqn:Hx.
    + rewrite (dlsym_found _ _ _ _ Ho Hx). exact HI.
    + rewrite (dlsym_missing _ _ _ Ho Hx). apply proc_wf_set_ld; [|eapply loaded_inv_wf; eauto].
      intros q Hq. now rewrite sym_is_open.
  - intros [v|]; [apply st_triple_ret; auto|].
    eapply st_triple_bind; [apply st_preserves_triple, print_preserves | intros ?; apply st_triple_ret; auto].
Qed.

(** Line 25: reading the name changes nothing; a mistyped name stops the
    run where it is. *)
Lemma announce_triple lib l0 v :
  st_triple (loaded_inv lib l0) (announce lib v) (fun _ => loaded_inv lib l0) (fun _ p => proc_wf p).
Proof.
  apply st_triple_exact. intros p HI s <-. pose proof (loaded_inv_open _ _ _ HI) as Ho.
  destruct v as [n|f|b]; [rewrite announce_ok by exact Ho; apply loaded_inv_out, HI| |];
    unfold announce; (erewrite st_bind_err; [|apply deref_cstr_bad; [exact Ho | reflexivity]]);
    eapply loaded_inv_wf; eauto.
Qed.

(** Lines 30-34: on a factory, the session returns to the loader state
    [l0] with the heap as it was; on anything else, [makedyn] stops
    before allocating. *)
Lemma use_plugin_triple lib l0 v :
  st_triple (loaded_inv lib l0) (use_plugin lib v) (fun _ p => proc_wf p) (fun _ p => proc_wf p).
Proof.
  apply st_triple_exact. intros p HI s <-. pose proof (loaded_inv_open _ _ _ HI) as Ho.
  destruct HI as (Hr & Hl & [Hlife Hfresh]).
  destruct v as [n|f|b].
  1,3: unfold use_plugin; (erewrite st_bind_err; [|apply makedyn_bad; reflexivity]);
       eapply loaded_inv_wf; split; [exact Hr | split; [exact Hl | split; assumption]].
  rewrite use_plugin_ok by (exact Ho || exact (Hfresh _ (le_n _))).
  cbn. rewrite Hl. unfold opened. rewrite (open_close _ _ _ _ Hr). split.
  - exact Hlife.
  - intros ptr Hle. apply Hfresh. cbn in *. lia.
Qed.

Lemma with_module_triple h lib l0 :
  st_triple (loaded_inv h l0) (with_module h lib) (fun _ p => proc_wf p) (fun _ p => proc_wf p).
Proof.
  unfold with_module. eapply st_triple_bind; [apply lookup_triple|].
  intros [nsym|]; [|apply st_triple_ret; auto].
  eapply st_triple_bind; [apply announce_triple | intros ?].
  eapply st_triple_bind; [apply lookup_triple|].
  intros [fsym|]; [|apply st_triple_ret; auto].
  eapply st_triple_bind; [apply use_plugin_triple | intros ?; apply st_triple_ret; auto].
Qed.

(** Lines 19-20: success opens [lib] over the current loader state; a
    failure leaves a well-formed process (the diagnostic is read and
    cleared). *)
Lemma open_library_triple lib l0 :
  st_triple (fun p => proc_wf p /\ p_ld p = l0) (open_library lib)
    (fun oh p => match oh with None => proc_wf p | Some h => loaded_inv h l0 p end)
    (fun _ p => proc_wf p).
Proof.
  apply st_triple_exact. intros p [Hwf <-] s <-.
  destruct (ld_mode_ok 0%Z && file_loadable (ld_file (p_ld p) lib)) eqn:Hok.
  - apply andb_prop in Hok as [Hm Hl].
    destruct (ld_file (p_ld p) lib) as [o|] eqn:Hf; [|discriminate].
    rewrite (open_library_ok lib p o Hm Hf Hl).
    split; [exact (open_ok _ _ _ o Hm Hf Hl) | split; [reflexivity|]].
    exact Hwf.
  - destruct (open_library_fail lib p Hok) as (d & _ & ->).
    apply (proc_wf_set_ld (set_out (p_out p ++ [("Could not open library " ++ lib ++ " : " ++ d)%string]) p)).
    + intros q Hq. cbn in *. now rewrite (load_error_is_open lib p q Hok).
    + exact Hwf.
Qed.

(** C26: The lifetime invariant on every exit of dlopen.cc's main,
    whatever the module exports and with the undefined exits included: if
    every live plugin object's module is open and the heap is fresh above
    the next address before main runs, both hold where it stops.  The
    dlclose of line 34 returns the loader to the state before line 19,
    and the instance of line 30 is deleted before it. *)
Theorem main_wf_all argv : st_preserves (proc_wf (L := L)) (main argv).
Proof.
  apply st_preserves_triple. unfold main. cbv zeta. destruct (Nat.ltb _ _).
  - eapply st_triple_bind; [apply st_preserves_triple, print_preserves | intros ?; apply st_triple_ret; auto].
  - apply st_triple_exact. intros p Hwf s <-.
    eapply st_triple_bind.
    + eapply st_triple_conseq; [apply (open_library_triple _ (p_ld p)) | | |]; eauto.
    + intros [h|]; [apply with_module_triple | apply st_triple_ret; auto].
    + split; [exact Hwf | reflexivity].
Qed.
End WfAll.
