(* ===== verification/HostC.v ===== *)
(** * The minimal-variant host, src/dlopen_c_example/dlopen.c

    [main] of dlopen.c: with a module path and a function name, it opens
    the module with [RTLD_GLOBAL | RTLD_LAZY], prints the [libname] string
    the module exports, resolves the named function and calls it.  It
    never calls [dlclose]: the module stays mapped until the process
    exits.  The error messages are modelled as the source formats them,
    including the swapped arguments of the missing-function message and
    the unused extra argument of the missing-name message. *)

From Stdlib Require Import String List ZArith Bool Lia Morphisms.
From stdpp Require Import base gmap strings.
From S2P Require Import Prelude Plugin Loader Protocol Runtime.
Import ListNotations.

Module DlopenC.
Section HostC.
Context {L : Type} `{Loader L}.
Local Open Scope string_scope.

Definition usage : string := "Usage: dlopen library_to_use.so function_to_call".

(** The mode of line 13. *)
Definition open_mode : Z := Z.lor RTLD_GLOBAL RTLD_LAZY.

(** Lines 13-14: no call to dlerror, the diagnostic is not printed. *)
Definition open_library (lib : string) : PM L (option handle) :=
  do oh <- dlopen lib open_mode ;
  match oh with
  | Some h => st_ret (Some h)
  | None => print ("Could not open library " ++ lib) ;; st_ret None
  end.

(** Lines 16-17: the format has one conversion for two arguments; the
    second ([argc[2]]) is ignored. *)
Definition resolve_libname (h : handle) (lib : string) : PM L (option symval) :=
  do os <- dlsym h libname_sym ;
  match os with
  | None => print ("Could not find library name in library " ++ lib) ;; st_ret None
  | Some v => st_ret (Some v)
  end.

(** Line 19: print the exported string. *)
Definition announce (h : handle) (v : symval) : PM L unit :=
  do name <- deref_cstr h libname_sym v ;
  print ("Using library: " ++ name).

(** Lines 21-22: the first [%s] receives [argc[1]] (the library) and
    the second [argc[2]] (the symbol). *)
Definition resolve_function (h : handle) (lib fn : string) : PM L (option symval) :=
  do os <- dlsym h fn ;
  match os with
  | None => print ("Could not find symbol " ++ lib ++ " in library " ++ fn) ;; st_ret None
  | Some v => st_ret (Some v)
  end.

(** Lines 16 to 25, once the module is open. *)
Definition with_library (h : handle) (lib fn : string) : PM L Z :=
  do on <- resolve_libname h lib ;
  match on with
  | None => st_ret (-1)%Z
  | Some nsym =>
      announce h nsym ;;
      do ot <- resolve_function h lib fn ;
      match ot with
      | None => st_ret (-1)%Z
      | Some t => call_func h fn t ;; st_ret 0%Z
      end
  end.

Definition main (argv : list string) : PM L Z :=
  if Nat.ltb (length argv) 3 then print usage ;; st_ret (-1)%Z
  else
    let lib := arg argv 1 in
    let fn := arg argv 2 in
    do oh <- open_library lib ;
    match oh with
    | None => st_ret (-1)%Z
    | Some h => with_library h lib fn
    end.
End HostC.
End DlopenC.
Import DlopenC.

(** ** Each step and [main] on each branch *)

Section MainC.
Context {L : Type} `{LoaderLaws L}.
Implicit Types (p : proc L) (argv : list string).

(** The loader state after line 13's dlopen. *)
Definition c_opened (lib : string) (l : L) : L := snd (ld_open lib open_mode l).

Lemma c_open_library_ok lib p o :
  ld_mode_ok open_mode = true -> ld_file (p_ld p) lib = Some o -> obj_loadable o = true ->
  open_library lib p = SOk (Some lib) (set_ev (p_ev p ++ [ALoad lib]) (set_ld (c_opened lib (p_ld p)) p)).
Proof. intros. unfold open_library. st_seq dlopen_ok. reflexivity. Qed.

Lemma c_open_library_fail lib p :
  ld_mode_ok open_mode && file_loadable (ld_file (p_ld p) lib) = false ->
  open_library lib p =
    SOk None (set_out (p_out p ++ [("Could not open library " ++ lib)%string])
                (set_ld (c_opened lib (p_ld p)) p)).
Proof. intros. unfold open_library. st_seq dlopen_fail. reflexivity. Qed.

Lemma c_opened_facts lib p o :
  ld_mode_ok open_mode = true -> ld_file (p_ld p) lib = Some o -> obj_loadable o = true ->
  ld_is_open (c_opened lib (p_ld p)) lib = true /\
  ld_file (c_opened lib (p_ld p)) = ld_file (p_ld p).
Proof.
  intros Hm Hf Hl. split; [|apply open_file].
  apply open_opens. exact (open_ok lib open_mode (p_ld p) o Hm Hf Hl).
Qed.

Lemma c_main_loaded argv p o :
  3 <= length argv -> ld_mode_ok open_mode = true ->
  ld_file (p_ld p) (arg argv 1) = Some o -> obj_loadable o = true ->
  main argv p =
    with_library (arg argv 1) (arg argv 1) (arg argv 2)
      (set_ev (p_ev p ++ [ALoad (arg argv 1)]) (set_ld (c_opened (arg argv 1) (p_ld p)) p)).
Proof.
  intros Hlen Hm Hf Hl. unfold main. rewrite (proj2 (Nat.ltb_ge _ _) Hlen).
  st_red. st_seq c_open_library_ok. reflexivity.
Qed.

Lemma resolve_libname_found h lib p v :
  ld_is_open (p_ld p) h = true -> file_sym (ld_file (p_ld p) h) libname_sym = Some v ->
  resolve_libname h lib p = SOk (Some v) p.
Proof. intros. unfold resolve_libname. st_seq dlsym_found. reflexivity. Qed.

Lemma resolve_function_found h lib fn p v :
  ld_is_open (p_ld p) h = true -> file_sym (ld_file (p_ld p) h) fn = Some v ->
  resolve_function h lib fn p = SOk (Some v) p.
Proof. intros. unfold resolve_function. st_seq dlsym_found. reflexivity. Qed.

Lemma resolve_libname_missing h lib p :
  ld_is_open (p_ld p) h = true -> file_sym (ld_file (p_ld p) h) libname_sym = None ->
  resolve_libname h lib p =
    SOk None (set_out (p_out p ++ [("Could not find library name in library " ++ lib)%string])
                (set_ld (snd (ld_sym h libname_sym (p_ld p))) p)).
Proof. intros. unfold resolve_libname. st_seq dlsym_missing. reflexivity. Qed.

Lemma resolve_function_missing h lib fn p :
  ld_is_open (p_ld p) h = true -> file_sym (ld_file (p_ld p) h) fn = None ->
  resolve_function h lib fn p =
    SOk None (set_out (p_out p ++ [("Could not find symbol " ++ lib ++ " in library " ++ fn)%string])
                (set_ld (snd (ld_sym h fn (p_ld p))) p)).
Proof. intros. unfold resolve_function. st_seq dlsym_missing. reflexivity. Qed.

Lemma c_announce_ok h n p :
  ld_is_open (p_ld p) h = true ->
  announce h (SymCStr n) p = SOk tt (set_out (p_out p ++ [("Using library: " ++ n)%string]) p).
Proof. intros. unfold announce. st_seq deref_cstr_ok. reflexivity. Qed.

Lemma with_library_session h lib fn p name body :
  ld_is_open (p_ld p) h = true ->
  file_sym (ld_file (p_ld p) h) libname_sym = Some (SymCStr name) ->
  file_sym (ld_file (p_ld p) h) fn = Some (SymFunc body) ->
  with_library h lib fn p =
    SOk 0%Z (set_ev (p_ev p ++ [ACall h]) (set_out (p_out p ++ [("Using library: " ++ name)%string] ++ body) p)).
Proof.
  intros. unfold with_library. st_seq resolve_libname_found. st_red.
  st_seq c_announce_ok. st_red.
  st_seq resolve_function_found. st_red. st_seq call_func_ok. simpl. now rewrite <- app_assoc.
Qed.

Lemma with_library_no_libname h lib fn p :
  ld_is_open (p_ld p) h = true -> file_sym (ld_file (p_ld p) h) libname_sym = None ->
  with_library h lib fn p =
    SOk (-1)%Z (set_out (p_out p ++ [("Could not find library name in library " ++ lib)%string])
                  (set_ld (snd (ld_sym h libname_sym (p_ld p))) p)).
Proof. intros. unfold with_library. st_seq resolve_libname_missing. reflexivity. Qed.

Lemma with_library_no_function h lib fn p name :
  ld_is_open (p_ld p) h = true ->
  file_sym (ld_file (p_ld p) h) libname_sym = Some (SymCStr name) ->
  file_sym (ld_file (p_ld p) h) fn = None ->
  with_library h lib fn p =
    SOk (-1)%Z (set_out (p_out p ++ [("Using library: " ++ name)%string;
                                     ("Could not find symbol " ++ lib ++ " in library " ++ fn)%string])
                  (set_ld (snd (ld_sym h fn (p_ld p))) p)).
Proof.
  intros. unfold with_library. st_seq resolve_libname_found. st_red. st_seq c_announce_ok. st_red.
  st_seq resolve_function_missing. simpl. now rewrite <- app_assoc.
Qed.

(** C15: With fewer than three arguments, [main] prints the usage line
    and returns -1 without calling the loader. *)
Theorem c_main_usage argv p :
  length argv < 3 -> main argv p = SOk (-1)%Z (set_out (p_out p ++ [usage]) p).
Proof. intros Hn. unfold main. now rewrite (proj2 (Nat.ltb_lt _ _) Hn). Qed.

(** C13: A failed load prints the path only: the loader's diagnostic is
    neither read nor printed. *)
Theorem c_main_load_error argv p :
  3 <= length argv ->
  ld_mode_ok open_mode && file_loadable (ld_file (p_ld p) (arg argv 1)) = false ->
  main argv p =
    SOk (-1)%Z (set_out (p_out p ++ [("Could not open library " ++ arg argv 1)%string])
                 (set_ld (c_opened (arg argv 1) (p_ld p)) p)).
Proof.
  intros Hlen Hf. unfold main. rewrite (proj2 (Nat.ltb_ge _ _) Hlen).
  st_red. st_seq c_open_library_fail. reflexivity.
Qed.

(** C10: The successful run prints the library's name and the function's
    output, returns 0, logs the load and one call into the module, and
    leaves the module open. *)
Theorem c_main_session argv p o name body :
  3 <= length argv -> ld_mode_ok open_mode = true ->
  ld_file (p_ld p) (arg argv 1) = Some o -> obj_loadable o = true ->
  obj_syms o !! libname_sym = Some (SymCStr name) ->
  obj_syms o !! arg argv 2 = Some (SymFunc body) ->
  main argv p =
    SOk 0%Z (set_ev (p_ev p ++ [ALoad (arg argv 1); ACall (arg argv 1)])
               (set_out (p_out p ++ [("Using library: " ++ name)%string] ++ body)
                 (set_ld (c_opened (arg argv 1) (p_ld p)) p))) /\
  ld_is_open (c_opened (arg argv 1) (p_ld p)) (arg argv 1) = true.
Proof.
  intros Hlen Hm Hf Hl Hn Hfn. destruct (c_opened_facts (arg argv 1) p o Hm Hf Hl) as [Ho Hfile].
  split; [|exact Ho].
  rewrite (c_main_loaded argv p o) by assumption.
  rewrite (with_library_session _ _ _ _ name body); simpl; try rewrite Hfile, Hf; try assumption.
  now rewrite <- app_assoc.
Qed.

(** C12: When the function is missing, the message names the library as the
    symbol and the symbol as the library; -1 is returned after the load,
    the only event logged. *)
Theorem c_main_no_function argv p o name :
  3 <= length argv -> ld_mode_ok open_mode = true ->
  ld_file (p_ld p) (arg argv 1) = Some o -> obj_loadable o = true ->
  obj_syms o !! libname_sym = Some (SymCStr name) ->
  obj_syms o !! arg argv 2 = None ->
  exists l,
    main argv p =
      SOk (-1)%Z {| p_ld := l; p_heap := p_heap p; p_next := p_next p;
                    p_out := p_out p ++ [("Using library: " ++ name)%string;
                      ("Could not find symbol " ++ arg argv 1 ++ " in library " ++ arg argv 2)%string];
                    p_ev := p_ev p ++ [ALoad (arg argv 1)] |}.
Proof.
  intros Hlen Hm Hf Hl Hn Hfn. destruct (c_opened_facts (arg argv 1) p o Hm Hf Hl) as [Ho Hfile].
  rewrite (c_main_loaded argv p o) by assumption. eexists.
  rewrite (with_library_no_function _ _ _ _ name); simpl; try rewrite Hfile, Hf; try assumption.
  reflexivity.
Qed.

(** C14: When the loaded module does not export libname, dlopen.c's main
    prints 'Could not find library name in library <path>' (the extra
    argv[2] argument is ignored) and returns -1 before resolving the
    function, having logged only the load. *)
Theorem c_main_no_libname argv p o :
  3 <= length argv -> ld_mode_ok open_mode = true ->
  ld_file (p_ld p) (arg argv 1) = Some o -> obj_loadable o = true ->
  obj_syms o !! libname_sym = None ->
  exists l,
    main argv p =
      SOk (-1)%Z {| p_ld := l; p_heap := p_heap p; p_next := p_next p;
                    p_out := p_out p ++ [("Could not find library name in library " ++ arg argv 1)%string];
                    p_ev := p_ev p ++ [ALoad (arg argv 1)] |}.
Proof.
  intros Hlen Hm Hf Hl Hn. destruct (c_opened_facts (arg argv 1) p o Hm Hf Hl) as [Ho Hfile].
  rewrite (c_main_loaded argv p o) by assumption. eexists.
  rewrite with_library_no_libname; simpl; try rewrite Hfile, Hf; try assumption.
  reflexivity.
Qed.

(** [main] on a module whose [libname] is not a string. *)
Lemma c_main_bad_libname_run argv p o v :
  3 <= length argv -> ld_mode_ok open_mode = true ->
  ld_file (p_ld p) (arg argv 1) = Some o -> obj_loadable o = true ->
  obj_syms o !! libname_sym = Some v -> sym_is_cstr (Some v) = false ->
  exists p', main argv p = SErr (UB_BadType libname_sym) p' /\ p_ev p' = p_ev p ++ [ALoad (arg argv 1)].
Proof.
  intros Hlen Hm Hf Hl Hn Hv. destruct (c_opened_facts (arg argv 1) p o Hm Hf Hl) as [Ho Hfile].
  rewrite (c_main_loaded argv p o) by assumption. eexists. split; [|shelve].
  assert (file_sym (ld_file (c_opened (arg argv 1) (p_ld p)) (arg argv 1)) libname_sym = Some v)
    by (rewrite Hfile, Hf; exact Hn).
  unfold with_library. st_seq resolve_libname_found. st_red.
  unfold announce. rewrite st_bind_assoc. erewrite st_bind_err; [reflexivity|].
  apply deref_cstr_bad; assumption.
  Unshelve. reflexivity.
Qed.

(** [main] on a module whose symbol [argv[2]] is not a function. *)
Lemma c_main_bad_function_run argv p o name v :
  3 <= length argv -> ld_mode_ok open_mode = true ->
  ld_file (p_ld p) (arg argv 1) = Some o -> obj_loadable o = true ->
  obj_syms o !! libname_sym = Some (SymCStr name) ->
  obj_syms o !! arg argv 2 = Some v -> sym_is_func (Some v) = false ->
  exists p', main argv p = SErr (UB_BadType (arg argv 2)) p' /\ p_ev p' = p_ev p ++ [ALoad (arg argv 1)].
Proof.
  intros Hlen Hm Hf Hl Hn Hfn Hv. destruct (c_opened_facts (arg argv 1) p o Hm Hf Hl) as [Ho Hfile].
  rewrite (c_main_loaded argv p o) by assumption. eexists. split; [|shelve].
  assert (file_sym (ld_file (c_opened (arg argv 1) (p_ld p)) (arg argv 1)) libname_sym
          = Some (SymCStr name)) by (rewrite Hfile, Hf; exact Hn).
  assert (file_sym (ld_file (c_opened (arg argv 1) (p_ld p)) (arg argv 1)) (arg argv 2)
          = Some v) by (rewrite Hfile, Hf; exact Hfn).
  unfold with_library. st_seq resolve_libname_found. st_red. st_seq c_announce_ok. st_red.
  st_seq resolve_function_found. st_red.
  erewrite st_bind_err; [reflexivity|]. destruct v; [reflexivity..|discriminate].
  Unshelve. reflexivity.
Qed.

(** C16: A symbol that is not a function (for instance [libname] itself) is
    called as one: undefined behaviour. *)
Theorem c_main_bad_function argv p o name v :
  3 <= length argv -> ld_mode_ok open_mode = true ->
  ld_file (p_ld p) (arg argv 1) = Some o -> obj_loadable o = true ->
  obj_syms o !! libname_sym = Some (SymCStr name) ->
  obj_syms o !! arg argv 2 = Some v -> sym_is_func (Some v) = false ->
  exists p', main argv p = SErr (UB_BadType (arg argv 2)) p'.
Proof. intros. edestruct c_main_bad_function_run as (p' & Hr & _); eauto. Qed.
(** When dlopen.c's [main] calls the function: three arguments at
    least, a module that loads with [open_mode], exporting [libname] and
    the symbol named by argv[2]. *)
Definition c_session_ok (argv : list string) (l : L) : bool :=
  negb (Nat.ltb (length argv) 3) &&
  (ld_mode_ok open_mode && file_loadable (ld_file l (arg argv 1))) &&
  is_some (file_sym (ld_file l (arg argv 1)) libname_sym) &&
  is_some (file_sym (ld_file l (arg argv 1)) (arg argv 2)).

Lemma c_session_ok_loaded argv l o :
  3 <= length argv -> ld_mode_ok open_mode = true -> ld_file l (arg argv 1) = Some o ->
  obj_loadable o = true ->
  c_session_ok argv l = is_some (obj_syms o !! libname_sym) && is_some (obj_syms o !! arg argv 2).
Proof.
  intros Hlen Hm Hf Hl. unfold c_session_ok. rewrite (proj2 (Nat.ltb_ge _ _) Hlen), Hm, Hf.
  cbn [file_loadable file_sym]. now rewrite Hl.
Qed.

(** On well-typed exports every branch of [main] returns: 0 when the
    function is called ([c_session_ok]), -1 otherwise. *)
Lemma c_main_runs argv p :
  (forall o, ld_file (p_ld p) (arg argv 1) = Some o -> lib_exports_typed o (arg argv 2) = true) ->
  exists r p', main argv p = SOk r p' /\ r = (if c_session_ok argv (p_ld p) then 0 else -1)%Z.
Proof.
  intros Htyped.
  destruct (Nat.lt_ge_cases (length argv) 3) as [Hlt|Hlen].
  { unfold main, c_session_ok. rewrite (proj2 (Nat.ltb_lt _ _) Hlt). eauto. }
  destruct (ld_mode_ok open_mode && file_loadable (ld_file (p_ld p) (arg argv 1))) eqn:Hok.
  2:{ unfold main, c_session_ok. rewrite (proj2 (Nat.ltb_ge _ _) Hlen), Hok. st_red.
      st_seq c_open_library_fail. eauto. }
  apply andb_prop in Hok as [Hm Hl].
  destruct (ld_file (p_ld p) (arg argv 1)) as [o|] eqn:Hf; [|discriminate].
  destruct (c_opened_facts (arg argv 1) p o Hm Hf Hl) as [Ho Hfile].
  rewrite (c_session_ok_loaded argv (p_ld p) o) by assumption.
  rewrite (c_main_loaded argv p o) by assumption.
  destruct (lib_exports_typed_cases o _ (Htyped o eq_refl)) as [[Hn|[n Hn]] [Hfn|[b Hfn]]];
    rewrite Hn, Hfn.
  1,2: rewrite with_library_no_libname; simpl; try rewrite Hfile, Hf; eauto.
  - rewrite (with_library_no_function _ _ _ _ n); simpl; try rewrite Hfile, Hf; eauto.
  - rewrite (with_library_session _ _ _ _ n b); simpl; try rewrite Hfile, Hf; eauto.
Qed.

(** C11: Safety: when the object at [argv[1]] exports [libname] as a string
    and the symbol named by [argv[2]] as a function, if at all, [main]
    performs no undefined operation. *)
Theorem c_main_safe argv p :
  (forall o, ld_file (p_ld p) (arg argv 1) = Some o -> lib_exports_typed o (arg argv 2) = true) ->
  st_safe (main argv) p.
Proof. intros Htyped. destruct (c_main_runs argv p Htyped) as (r & p' & Hr & _). exists r, p'. exact Hr. Qed.

(** C21: The exit status of dlopen.c, branch by branch: on well-typed
    exports the process exits (no undefined operation) with status 0
    exactly when it calls the function (three arguments, the module loads
    and exports libname and the symbol named by argv[2]), and with status
    255, the low eight bits of [return -1], on every other branch. *)
Theorem c_main_exit_status argv p :
  (forall o, ld_file (p_ld p) (arg argv 1) = Some o -> lib_exports_typed o (arg argv 2) = true) ->
  exists out, observe (main argv p) = (Exited (if c_session_ok argv (p_ld p) then 0 else 255)%Z, out).
Proof.
  intros Htyped. destruct (c_main_runs argv p Htyped) as (r & p' & Hr & ->).
  rewrite Hr. eexists. now destruct (c_session_ok argv (p_ld p)).
Qed.

(** The undefined exits of dlopen.c's [main]: a mistyped [libname] or
    function symbol, after the module was loaded and before it was
    called. *)
Lemma c_main_err argv p u p' :
  main argv p = SErr u p' ->
  (u = UB_BadType libname_sym \/ u = UB_BadType (arg argv 2)) /\
  p_ev p' = p_ev p ++ [ALoad (arg argv 1)].
Proof.
  intros Hr.
  destruct (Nat.lt_ge_cases (length argv) 3) as [Hlt|Hlen].
  { rewrite c_main_usage in Hr by exact Hlt. discriminate. }
  destruct (ld_mode_ok open_mode && file_loadable (ld_file (p_ld p) (arg argv 1))) eqn:Hok.
  2:{ unfold main in Hr. rewrite (proj2 (Nat.ltb_ge _ _) Hlen) in Hr. st_red.
      rewrite (st_bind_ok _ _ _ _ _ (c_open_library_fail _ p Hok)) in Hr. discriminate. }
  apply andb_prop in Hok as [Hm Hl].
  destruct (ld_file (p_ld p) (arg argv 1)) as [o|] eqn:Hf; [|discriminate].
  destruct (c_opened_facts (arg argv 1) p o Hm Hf Hl) as [Ho Hfile].
  destruct (obj_syms o !! libname_sym) as [[n|f|b]|] eqn:Hn.
  2,3: destruct (c_main_bad_libname_run argv p o _ Hlen Hm Hf Hl Hn eq_refl) as (p'' & Hbad & Hev);
       rewrite Hbad in Hr; injection Hr as <- <-; auto.
  2:{ rewrite (c_main_loaded argv p o), with_library_no_libname in Hr; simpl;
      try rewrite Hfile, Hf; try assumption; discriminate. }
  destruct (obj_syms o !! arg argv 2) as [[m|f|b]|] eqn:Hfn.
  1,2: destruct (c_main_bad_function_run argv p o n _ Hlen Hm Hf Hl Hn Hfn eq_refl) as (p'' & Hbad & Hev);
       rewrite Hbad in Hr; injection Hr as <- <-; auto.
  - rewrite (c_main_loaded argv p o), (with_library_session _ _ _ _ n b) in Hr; simpl;
      try rewrite Hfile, Hf; try assumption; discriminate.
  - rewrite (c_main_loaded argv p o), (with_library_no_function _ _ _ _ n) in Hr; simpl;
      try rewrite Hfile, Hf; try assumption; discriminate.
Qed.

(** C23: Classification of undefined behaviour: whatever the module
    exports, the only undefined operation dlopen.c's main can perform is
    reading [libname] as a string when it is not one or calling the symbol
    named by argv[2] as a function when it is not one; it never uses a
    handle that is not open or code of an unmapped module. *)
Theorem c_main_ub_only_type argv p u p' :
  main argv p = SErr u p' -> u = UB_BadType libname_sym \/ u = UB_BadType (arg argv 2).
Proof. intros Hr. exact (proj1 (c_main_err argv p u p' Hr)). Qed.

(** Two argument vectors dlopen.c cannot tell apart: both have fewer
    than three entries or neither has, and they agree on [argv[1]] and
    [argv[2]]. *)
Definition c_argv_equiv (argv argv' : list string) : Prop :=
  Nat.ltb (length argv) 3 = Nat.ltb (length argv') 3 /\
  arg argv 1 = arg argv' 1 /\ arg argv 2 = arg argv' 2.

#[export] Instance c_argv_equiv_equivalence : Equivalence c_argv_equiv.
Proof.
  split; [intros a; repeat split | intros a b (H1 & H2 & H3); repeat split; congruence
         | intros a b c (H1 & H2 & H3) (H4 & H5 & H6); repeat split; congruence].
Qed.

(** C25: dlopen.c reads nothing of its command line but the argument count
    test, argv[1] and argv[2]: main is the same computation on any two
    argument vectors [c_argv_equiv] relates. *)
Theorem c_main_argv_proper : Proper (c_argv_equiv ==> eq) (main (L := L)).
Proof. intros argv argv' (Hn & Ha & Hf). unfold main. now rewrite Hn, Ha, Hf. Qed.

End MainC.
