(* ===== verification/Refinement.v ===== *)
(** * The hosts refine the protocol

    The abstraction [abs] of a process keeps what the protocol of
    [Protocol] speaks of: which handles the loader has open, and for each
    live plugin object the module its code lives in.  The trace of a run
    is not chosen by the proof: it is what the run appended to the
    process's event log [p_ev], one label per call that performed a
    protocol event.  [logs p tr p'] says that the run from [p] to [p']
    appended exactly [tr] and that [tr] is a run of the protocol machine
    from [abs p] to [abs p'].  Every primitive of [Runtime] that returns
    is simulated:
    - the lookups and the output ([dlsym], [dlerror], [print],
      [deref_cstr]) are [quiet]: they keep the open handles, the heap, the
      next address and the log ([pframe]);
    - [dlopen] logs an [ALoad] step when it succeeds and is quiet
      otherwise;
    - [makedyn] on a fresh address logs an [AConstruct] step, [vtest] an
      [AInvoke] step, [cpp_delete] an [ARelease] step, [call_func] an
      [ACall] step and [dlclose] an [AUnload] step when no live object
      comes from the handle ([step_sim]).
    Composing them along the code gives the log of each host: dlopen.cc's
    [use_plugin] logs [plugin_trace], and every run of [main] that returns
    logs a run of the protocol whose labels are those of [host_protocol]
    (dlopen.cc) or [c_host_protocol] (dlopen.c).  With the undefined exits
    of [HostCpp.main_err] and [HostC.c_main_err], the liveness theorems
    cover every exit. *)

From Stdlib Require Import String List ZArith Bool Lia Setoid Morphisms.
From stdpp Require Import base gmap strings.
From S2P Require Import Prelude Plugin Loader Runtime Protocol HostCpp HostC.
Import ListNotations.

Section Abstraction.
Context {L : Type} `{Loader L}.
Implicit Types (p : proc L).

Definition abs p : astate :=
  {| a_open := ld_is_open (p_ld p); a_live := o_home <$> p_heap p |}.

(** Same open handles, same heap, same next address, nothing logged. *)
Definition pframe p p' : Prop :=
  (forall q, ld_is_open (p_ld p') q = ld_is_open (p_ld p) q) /\
  p_heap p' = p_heap p /\ p_next p' = p_next p /\ p_ev p' = p_ev p.

(** [m] keeps the frame on every run that returns. *)
Definition quiet {A} (m : PM L A) : Prop :=
  forall p a p', m p = SOk a p' -> pframe p p'.
End Abstraction.

#[export] Instance pframe_equivalence {L} `{Loader L} : Equivalence (@pframe L _).
Proof.
  split.
  - intros p. split; [reflexivity | repeat split].
  - intros p p' (Ho & Hh & Hn & He). split; [intros q; symmetry; apply Ho | repeat split; congruence].
  - intros p1 p2 p3 (Ho1 & Hh1 & Hn1 & He1) (Ho2 & Hh2 & Hn2 & He2).
    split; [intros q; rewrite Ho2; apply Ho1 | repeat split; congruence].
Qed.

(** Close a goal [pframe p p'] from a chain [pframe p p1], [pframe p1 p2], ... *)
Ltac pframe_chain :=
  repeat match goal with
         | H : pframe ?x ?y |- pframe ?x ?z => transitivity y; [exact H|]; clear H
         end;
  reflexivity.

Section Simulation.
Context {L : Type} `{LoaderLaws L}.
Implicit Types (p : proc L).

Lemma pframe_abs p p' : pframe p p' -> aequiv (abs p) (abs p').
Proof. intros (Ho & Hh & _). split; simpl; [intros q; symmetry; apply Ho | now rewrite Hh]. Qed.

Lemma no_objs_of_frame h p p' : pframe p p' -> no_objs_of h p -> no_objs_of h p'.
Proof. intros (_ & Hh & _) Hno ptr o. rewrite Hh. apply Hno. Qed.

(** No live object of [p] comes from [h], in the abstraction. *)
Lemma no_objs_of_abs h p : no_objs_of h p -> forall ptr, a_live (abs p) !! ptr <> Some h.
Proof.
  intros Hno ptr Hp. simpl in Hp. apply lookup_fmap_Some in Hp as (o & Hh & Hp).
  exact (Hno ptr o Hp Hh).
Qed.

(** *** Quiet primitives *)

Lemma quiet_ret {A} (a : A) : quiet (L := L) (st_ret a).
Proof. intros p b p' Hr. apply st_ret_inv in Hr as [_ <-]. reflexivity. Qed.

Lemma quiet_fail {A} e : quiet (L := L) (A := A) (st_fail e).
Proof. intros p b p' Hr. discriminate. Qed.

Lemma quiet_bind {A B} (m : PM L A) (k : A -> PM L B) :
  quiet m -> (forall a, quiet (k a)) -> quiet (st_bind m k).
Proof.
  intros Hm Hk p b p'' Hr. st_inv Hr.
  etransitivity; [exact (Hm _ _ _ Hrun) | exact (Hk _ _ _ _ Hr)].
Qed.

Lemma pframe_set_out p o : pframe p (set_out o p).
Proof. split; [reflexivity | repeat split]. Qed.

Lemma quiet_emit lines : quiet (L := L) (emit lines).
Proof. intros p a p' Hr. inversion Hr. apply pframe_set_out. Qed.

Lemma quiet_print line : quiet (L := L) (print line).
Proof. apply quiet_emit. Qed.

Lemma quiet_require_open h e : quiet (L := L) (require_open h e).
Proof. intros p a p' Hr. unfold require_open in Hr. destruct (ld_is_open _ h); inversion Hr; subst; reflexivity. Qed.

Lemma quiet_with_ld {A} (f : L -> A * L) :
  (forall l q, ld_is_open (snd (f l)) q = ld_is_open l q) -> quiet (with_ld f).
Proof. intros Hf p a p' Hr. inversion Hr. split; [apply Hf | repeat split]. Qed.

Lemma quiet_dlsym h x : quiet (L := L) (dlsym h x).
Proof. apply quiet_bind; [apply quiet_require_open | intros _; apply quiet_with_ld, sym_is_open]. Qed.

Lemma quiet_dlerror : quiet (L := L) dlerror.
Proof. apply quiet_with_ld, error_is_open. Qed.

Lemma quiet_cstr o : quiet (L := L) (cstr o).
Proof. destruct o; [apply quiet_ret | apply quiet_fail]. Qed.

Lemma quiet_deref_cstr h x v : quiet (L := L) (deref_cstr h x v).
Proof. apply quiet_bind; [apply quiet_require_open | intros _; destruct v; auto using quiet_ret, quiet_fail]. Qed.
End Simulation.

#[export] Hint Resolve quiet_ret quiet_fail quiet_emit quiet_print quiet_require_open
  quiet_dlsym quiet_dlerror quiet_cstr quiet_deref_cstr : dl.

(** Prove [quiet m] by following the structure of [m]. *)
Ltac quiet_auto :=
  repeat first
    [ solve [eauto with dl]
    | match goal with |- forall _, _ => intro end
    | progress cbv beta
    | apply quiet_bind
    | match goal with |- quiet (match ?x with _ => _ end) => destruct x end ].

(** Replace each run [m p = SOk a p'] of a quiet [m] by [pframe p p']. *)
Ltac quiet_hyps :=
  repeat match goal with
         | Hr : ?m ?p = SOk _ _ |- _ =>
             let Q := fresh "Q" in
             assert (Q : quiet m) by eauto with dl; apply Q in Hr; clear Q
         end.

(** Reduce the abstraction of a known process. *)
Ltac abs_red := unfold abs; cbn [a_open a_live p_ld p_heap p_next set_out set_ld set_heap set_ev].

Section Steps.
Context {L : Type} `{LoaderLaws L}.
Implicit Types (p : proc L).

(** What the code of a module does when it returns: its module was open. *)
Lemma run_code_inv h lines p u p' :
  run_code h lines p = SOk u p' -> ld_is_open (p_ld p) h = true /\ p' = set_out (p_out p ++ lines) p.
Proof.
  unfold run_code. intros Hr. st_inv Hr. unfold require_open in Hrun.
  destruct (ld_is_open (p_ld p) h) eqn:Ho; [|discriminate].
  injection Hrun as _ <-. unfold emit in Hr. injection Hr as _ <-. auto.
Qed.

(** A call that logged the single event [a], a step of the machine. *)
Definition step_sim (a : alabel) p p' : Prop :=
  p_ev p' = p_ev p ++ [a] /\ astep (abs p) a (abs p').

(** A run that logged exactly [tr], a run of the machine. *)
Definition logs p (tr : list alabel) p' : Prop :=
  p_ev p' = p_ev p ++ tr /\ arun (abs p) tr (abs p').

Lemma logs_frame p p' : pframe p p' -> logs p [] p'.
Proof.
  intros Hf. split; [rewrite app_nil_r; apply Hf | constructor; apply pframe_abs, Hf].
Qed.

Lemma logs_step a tr p p1 p2 : step_sim a p p1 -> logs p1 tr p2 -> logs p (a :: tr) p2.
Proof.
  intros [He1 Hs] [He2 Hr]. split; [rewrite He2, He1, <- app_assoc; reflexivity | econstructor; eauto].
Qed.

Lemma logs_frame_l p p1 tr p2 : pframe p p1 -> logs p1 tr p2 -> logs p tr p2.
Proof.
  intros Hf [He Hr]. split; [rewrite He; f_equal; apply Hf|].
  eapply arun_equiv_l; [apply pframe_abs, Hf | exact Hr].
Qed.

(** The effect of a dlopen on the abstraction: a load step on success,
    nothing on failure. *)
Definition load_sim (lib : string) (oh : option handle) p p' : Prop :=
  match oh with
  | None => pframe p p'
  | Some h => h = lib /\ p_heap p' = p_heap p /\ p_next p' = p_next p /\ step_sim (ALoad lib) p p'
  end.

Lemma dlopen_sim lib m p oh p' : dlopen lib m p = SOk oh p' -> load_sim lib oh p p'.
Proof.
  unfold dlopen, with_ld, st_bind, log. intros Hr.
  destruct (fst (ld_open lib m (p_ld p))) as [h|] eqn:Hres; injection Hr as <- <-; simpl.
  - assert (h = lib) as -> by (rewrite open_result in Hres; destruct (_ && _); congruence).
    split; [reflexivity | split; [reflexivity | split; [reflexivity | split; [reflexivity|]]]].
    constructor; abs_red; [intros q; rewrite open_is_open, Hres; simpl; now rewrite andb_true_r
                          | reflexivity].
  - split; [intros q; apply open_fail_is_open, Hres | repeat split].
Qed.

Lemma cc_open_library_sim lib p oh p' :
  DlopenCc.open_library lib p = SOk oh p' -> load_sim lib oh p p'.
Proof.
  unfold DlopenCc.open_library. intros Hr. st_inv Hr as [h|] Hrun; apply dlopen_sim in Hrun.
  - apply st_ret_inv in Hr as [<- <-]. exact Hrun.
  - do 3 st_inv Hr. apply st_ret_inv in Hr as [<- <-]. quiet_hyps. simpl in *. pframe_chain.
Qed.

Lemma c_open_library_sim lib p oh p' :
  DlopenC.open_library lib p = SOk oh p' -> load_sim lib oh p p'.
Proof.
  unfold DlopenC.open_library. intros Hr. st_inv Hr as [h|] Hrun; apply dlopen_sim in Hrun.
  - apply st_ret_inv in Hr as [<- <-]. exact Hrun.
  - st_inv Hr. apply st_ret_inv in Hr as [<- <-]. quiet_hyps. simpl in *. pframe_chain.
Qed.

(** [makedyn] on a fresh address constructs an instance of its module. *)
Lemma makedyn_sim h x v p n p' :
  p_heap p !! p_next p = None -> makedyn h x v p = SOk n p' ->
  n = p_next p /\ step_sim (AConstruct n h) p p'.
Proof.
  intros Hfree Hr. destruct v as [|f|]; try discriminate.
  destruct (ld_is_open (p_ld p) h) eqn:Ho.
  - rewrite makedyn_ok in Hr by exact Ho. injection Hr as <- <-. split; [reflexivity|].
    split; [reflexivity|].
    constructor; abs_red; [exact Ho | rewrite lookup_fmap, Hfree; reflexivity
                          | intros q; reflexivity | apply fmap_insert].
  - unfold makedyn in Hr. st_inv Hr. apply run_code_inv in Hrun as [Ho' _]. congruence.
Qed.

Lemma vtest_sim ptr p u p' :
  vtest ptr p = SOk u p' ->
  p_heap p' = p_heap p /\ p_next p' = p_next p /\ step_sim (AInvoke ptr) p p'.
Proof.
  unfold vtest. intros Hr. st_inv Hr as o Hrun. unfold load_obj in Hrun.
  destruct (p_heap p !! ptr) as [o'|] eqn:Hp; [|discriminate]. injection Hrun as <- <-.
  st_inv Hr as [] Hcode. apply run_code_inv in Hcode as [Ho ->]. unfold log in Hr. injection Hr as _ <-.
  split; [reflexivity | split; [reflexivity | split; [reflexivity|]]].
  econstructor; [abs_red; rewrite lookup_fmap, Hp; reflexivity | exact Ho | split; reflexivity].
Qed.

Lemma cpp_delete_sim ptr p u p' :
  cpp_delete ptr p = SOk u p' -> p_next p' = p_next p /\ step_sim (ARelease ptr) p p'.
Proof.
  unfold cpp_delete. intros Hr. st_inv Hr as o Hrun. unfold load_obj in Hrun.
  destruct (p_heap p !! ptr) as [o'|] eqn:Hp; [|discriminate]. injection Hrun as <- <-.
  st_inv Hr as [] Hcode. apply run_code_inv in Hcode as [Ho ->].
  st_inv Hr as [] Hfree. unfold free in Hfree. injection Hfree as <-.
  unfold log in Hr. injection Hr as _ <-.
  split; [reflexivity | split; [reflexivity|]].
  econstructor; abs_red; [rewrite lookup_fmap, Hp; reflexivity | exact Ho
                         | intros q; reflexivity | apply fmap_delete].
Qed.

(** [dlclose] of a handle no live object comes from is an unload step. *)
Lemma dlclose_sim h p r p' :
  (forall ptr, a_live (abs p) !! ptr <> Some h) -> dlclose h p = SOk r p' ->
  p_heap p' = p_heap p /\ p_next p' = p_next p /\ step_sim (AUnload h) p p'.
Proof.
  intros Hno Hr. destruct (ld_is_open (p_ld p) h) eqn:Ho.
  2:{ unfold dlclose in Hr. rewrite (st_bind_err _ _ _ _ _ (require_open_err _ _ _ Ho)) in Hr.
      discriminate. }
  rewrite dlclose_ok in Hr by exact Ho. injection Hr as _ <-.
  split; [reflexivity | split; [reflexivity | split; [reflexivity|]]].
  constructor; abs_red; [exact Ho | exact Hno | intros q Hq; apply close_is_open, Hq | reflexivity].
Qed.

Lemma call_func_sim h x v p u p' :
  call_func h x v p = SOk u p' -> step_sim (ACall h) p p'.
Proof.
  intros Hr. destruct v; try discriminate. unfold call_func in Hr.
  st_inv Hr as [] Hcode. apply run_code_inv in Hcode as [Ho ->]. unfold log in Hr. injection Hr as _ <-.
  split; [reflexivity|]. constructor; [exact Ho | split; reflexivity].
Qed.

(** The lookups and the announcements of both hosts are quiet. *)
Lemma quiet_resolve_classname h lib : quiet (L := L) (DlopenCc.resolve_classname h lib).
Proof. unfold DlopenCc.resolve_classname. quiet_auto. Qed.

Lemma quiet_cc_announce h v : quiet (L := L) (DlopenCc.announce h v).
Proof. unfold DlopenCc.announce. quiet_auto. Qed.

Lemma quiet_resolve_factory h lib : quiet (L := L) (DlopenCc.resolve_factory h lib).
Proof. unfold DlopenCc.resolve_factory. quiet_auto. Qed.

Lemma quiet_resolve_libname h lib : quiet (L := L) (DlopenC.resolve_libname h lib).
Proof. unfold DlopenC.resolve_libname. quiet_auto. Qed.

Lemma quiet_c_announce h v : quiet (L := L) (DlopenC.announce h v).
Proof. unfold DlopenC.announce. quiet_auto. Qed.

Lemma quiet_resolve_function h lib fn : quiet (L := L) (DlopenC.resolve_function h lib fn).
Proof. unfold DlopenC.resolve_function. quiet_auto. Qed.
End Steps.

#[export] Hint Resolve quiet_resolve_classname quiet_cc_announce quiet_resolve_factory
  quiet_resolve_libname quiet_c_announce quiet_resolve_function : dl.

(** ** The hosts' traces *)

Section Hosts.
Context {L : Type} `{LoaderLaws L}.
Implicit Types (p : proc L) (argv : list string).

(** dlopen.cc, lines 30-34: every run of [use_plugin] that returns, from a
    fresh address and a module with no live object, logs the
    construction, invocation and release of one instance and then the
    unload of the module. *)
Lemma use_plugin_sim h v p p' :
  p_heap p !! p_next p = None -> no_objs_of h p ->
  DlopenCc.use_plugin h v p = SOk tt p' -> logs p (plugin_trace h (p_next p)) p'.
Proof.
  intros Hfree Hno Hr. unfold DlopenCc.use_plugin in Hr.
  st_inv Hr as n Hrun. apply makedyn_sim in Hrun as [-> A1]; [|exact Hfree].
  st_inv Hr. apply vtest_sim in Hrun as (_ & _ & A2).
  st_inv Hr. apply cpp_delete_sim in Hrun as [_ A3].
  st_inv Hr. apply st_ret_inv in Hr as [_ <-].
  apply dlclose_sim in Hrun as (_ & _ & A4).
  - apply (logs_step _ _ _ _ _ A1), (logs_step _ _ _ _ _ A2), (logs_step _ _ _ _ _ A3),
      (logs_step _ _ _ _ _ A4), logs_frame. reflexivity.
  - intros ptr. rewrite (construct_release_live _ _ _ _ _ _ (proj2 A1) (proj2 A2) (proj2 A3)).
    apply no_objs_of_abs, Hno.
Qed.

(** Lines 22-35: the module's session, or an early return that changes
    nothing the protocol sees. *)
Lemma with_module_sim h lib p r p' :
  p_heap p !! p_next p = None -> no_objs_of h p ->
  DlopenCc.with_module h lib p = SOk r p' ->
  (r = 0%Z /\ logs p (plugin_trace h (p_next p)) p') \/ (r = (-1)%Z /\ pframe p p').
Proof.
  intros Hfree Hno Hr. unfold DlopenCc.with_module in Hr. st_inv Hr as [nsym|] Hrun.
  2:{ apply st_ret_inv in Hr as [<- <-]. quiet_hyps. right. auto. }
  st_inv Hr. st_inv Hr as [fsym|] Hrun1.
  2:{ apply st_ret_inv in Hr as [<- <-]. quiet_hyps. right. split; [reflexivity | pframe_chain]. }
  st_inv Hr as u Hrun2. destruct u. apply st_ret_inv in Hr as [<- <-]. quiet_hyps.
  match goal with Hu : DlopenCc.use_plugin _ _ ?q = _ |- _ =>
    assert (Hf : pframe p q) by pframe_chain end.
  left. split; [reflexivity|]. apply (logs_frame_l _ _ _ _ Hf).
  destruct Hf as (_ & Hh & Hn & _). rewrite <- Hn. apply (use_plugin_sim h fsym); [congruence | | exact Hrun2].
  intros ptr o. rewrite Hh. apply Hno.
Qed.

(** Every run of dlopen.cc's [main] that returns logs a run of the
    protocol whose trace [host_protocol] allows. *)
Lemma main_sim argv p r p' :
  p_heap p !! p_next p = None -> no_objs_of (arg argv 1) p ->
  DlopenCc.main argv p = SOk r p' ->
  exists tr, logs p tr p' /\ host_protocol (arg argv 1) (p_next p) r tr.
Proof.
  intros Hfree Hno Hr. unfold DlopenCc.main in Hr. destruct (Nat.ltb (length argv) 2).
  - st_inv Hr. apply st_ret_inv in Hr as [<- <-]. quiet_hyps.
    exists []. split; [apply logs_frame; assumption | right; auto].
  - st_inv Hr as [h|] Hrun; apply cc_open_library_sim in Hrun.
    + destruct Hrun as (-> & Hh & Hn & Hstep).
      apply with_module_sim in Hr as [[-> Hrun]|[-> Hf]];
        [| |rewrite Hh, Hn; exact Hfree | intros ptr o; rewrite Hh; apply Hno].
      * exists (session_trace (arg argv 1) (p_next p)). split; [|left; auto].
        apply (logs_step _ _ _ _ _ Hstep). rewrite <- Hn. exact Hrun.
      * exists [ALoad (arg argv 1)]. split; [|right; auto].
        apply (logs_step _ _ _ _ _ Hstep), logs_frame, Hf.
    + apply st_ret_inv in Hr as [<- <-].
      exists []. split; [apply logs_frame, Hrun | right; auto].
Qed.

(** dlopen.c, lines 16-25. *)
Lemma with_library_sim h lib fn p r p' :
  DlopenC.with_library h lib fn p = SOk r p' ->
  (r = 0%Z /\ logs p [ACall h] p') \/ (r = (-1)%Z /\ pframe p p').
Proof.
  intros Hr. unfold DlopenC.with_library in Hr. st_inv Hr as [nsym|] Hrun.
  2:{ apply st_ret_inv in Hr as [<- <-]. quiet_hyps. right. auto. }
  st_inv Hr. st_inv Hr as [t|] Hrun1.
  2:{ apply st_ret_inv in Hr as [<- <-]. quiet_hyps. right. split; [reflexivity | pframe_chain]. }
  st_inv Hr as u Hrun2. apply st_ret_inv in Hr as [<- <-].
  apply call_func_sim in Hrun2 as Hstep. quiet_hyps.
  match goal with Hc : step_sim _ ?q _ |- _ =>
    assert (Hf : pframe p q) by pframe_chain end.
  left. split; [reflexivity|].
  apply (logs_frame_l _ _ _ _ Hf), (logs_step _ _ _ _ _ Hstep), logs_frame. reflexivity.
Qed.

Lemma c_main_sim argv p r p' :
  DlopenC.main argv p = SOk r p' ->
  exists tr, logs p tr p' /\ c_host_protocol (arg argv 1) r tr.
Proof.
  intros Hr. unfold DlopenC.main in Hr. destruct (Nat.ltb (length argv) 3).
  - st_inv Hr. apply st_ret_inv in Hr as [<- <-]. quiet_hyps.
    exists []. split; [apply logs_frame; assumption | right; auto].
  - st_inv Hr as [h|] Hrun; apply c_open_library_sim in Hrun.
    + destruct Hrun as (-> & _ & _ & Hstep).
      apply with_library_sim in Hr as [[-> Hrun]|[-> Hf]].
      * exists [ALoad (arg argv 1); ACall (arg argv 1)]. split; [|left; auto].
        apply (logs_step _ _ _ _ _ Hstep), Hrun.
      * exists [ALoad (arg argv 1)]. split; [|right; auto].
        apply (logs_step _ _ _ _ _ Hstep), logs_frame, Hf.
    + apply st_ret_inv in Hr as [<- <-].
      exists []. split; [apply logs_frame, Hrun | right; auto].
Qed.
End Hosts.

(** ** The refinement theorems *)

Section Refinement.
Context {L : Type} `{LoaderLaws L}.
Implicit Types (p : proc L) (argv : list string).

(** C17: Refinement of the host protocol: when the object at argv[1]
    exports classname and Factory at their types (if at all), no live
    object comes from it, and the next address is free, dlopen.cc's main
    returns, and the events its calls append to the process's log are a
    run of the protocol machine from the abstraction of the initial
    process to that of the final one: either the whole sequence load,
    construct, invoke, release, unload with status 0, or status -1 after
    loading at most the module. *)
Theorem main_refines argv p :
  p_heap p !! p_next p = None -> no_objs_of (arg argv 1) p ->
  (forall o, ld_file (p_ld p) (arg argv 1) = Some o -> factory_exports_typed o = true) ->
  exists r p' tr, DlopenCc.main argv p = SOk r p' /\ p_ev p' = p_ev p ++ tr /\
    arun (abs p) tr (abs p') /\ host_protocol (arg argv 1) (p_next p) r tr.
Proof.
  intros Hfree Hno Htyped. destruct (main_frame argv p Hfree Htyped) as (r & p' & Hr & _).
  destruct (main_sim argv p r p' Hfree Hno Hr) as (tr & [He Hrun] & Hp).
  exists r, p', tr. auto.
Qed.

(** C18: dlopen.cc lines 30-34 on an open module with no live object and a
    free next address: the plugin's use returns, and the calls it makes
    log the protocol's construct, invoke, release, unload sequence on
    that address, a run of the protocol machine. *)
Theorem use_plugin_refines h f p :
  ld_is_open (p_ld p) h = true -> p_heap p !! p_next p = None -> no_objs_of h p ->
  exists p', DlopenCc.use_plugin h (SymFactory f) p = SOk tt p' /\
    p_ev p' = p_ev p ++ plugin_trace h (p_next p) /\
    arun (abs p) (plugin_trace h (p_next p)) (abs p').
Proof.
  intros Ho Hfree Hno. pose proof (use_plugin_ok h f p Ho Hfree) as Hr.
  eexists. split; [exact Hr | exact (use_plugin_sim h _ p _ Hfree Hno Hr)].
Qed.

(** C19: Refinement for dlopen.c: on well-typed exports its main returns,
    and the events its calls log are a run of the protocol machine: the
    load followed by one call into the module with status 0 (the module
    is never unloaded), or status -1 after loading at most the module. *)
Theorem c_main_refines argv p :
  (forall o, ld_file (p_ld p) (arg argv 1) = Some o -> lib_exports_typed o (arg argv 2) = true) ->
  exists r p' tr, DlopenC.main argv p = SOk r p' /\ p_ev p' = p_ev p ++ tr /\
    arun (abs p) tr (abs p') /\ c_host_protocol (arg argv 1) r tr.
Proof.
  intros Htyped. destruct (c_main_runs argv p Htyped) as (r & p' & Hr & _).
  destruct (c_main_sim argv p r p' Hr) as (tr & [He Hrun] & Hp). exists r, p', tr. auto.
Qed.

(** C27: Liveness of dlopen.cc's resources on every exit, the undefined
    ones included and whatever the module exports: from a free next
    address and no live object of the module, in the events main logs
    every construction of an instance is followed by its release; the
    module is unloaded exactly when main returns 0, and then its load is
    followed by its unload. *)
Theorem main_liveness argv p :
  p_heap p !! p_next p = None -> no_objs_of (arg argv 1) p ->
  exists tr, p_ev (sres_state (DlopenCc.main argv p)) = p_ev p ++ tr /\
    (forall n h, leads_to (eq (AConstruct n h)) (eq (ARelease n)) tr) /\
    ((exists p', DlopenCc.main argv p = SOk 0%Z p') <-> In (AUnload (arg argv 1)) tr) /\
    ((exists p', DlopenCc.main argv p = SOk 0%Z p') ->
     leads_to (eq (ALoad (arg argv 1))) (eq (AUnload (arg argv 1))) tr).
Proof.
  intros Hfree Hno. destruct (DlopenCc.main argv p) as [r p'|u p'] eqn:Hr.
  - destruct (main_sim argv p r p' Hfree Hno Hr) as (tr & [He _] & Hp).
    destruct (host_protocol_liveness _ _ _ _ Hp) as (Hc & Hl & _).
    pose proof (host_protocol_unload _ _ _ _ Hp) as Hu.
    exists tr. split; [exact He | split; [exact Hc|]].
    split; [split; [intros (q & Hq); injection Hq as -> _; apply Hu; reflexivity
                   | intros Hin; exists p'; rewrite (proj2 Hu Hin); reflexivity]|].
    intros (q & Hq). injection Hq as -> _. apply Hl. reflexivity.
  - destruct (main_err argv p u p' Hfree Hr) as [_ He].
    exists [ALoad (arg argv 1)]. split; [exact He|].
    split; [intros n h; leads_to_solve|].
    split; [split; [intros (q & Hq); discriminate | simpl; intuition discriminate]|].
    intros (q & Hq). discriminate.
Qed.

(** C28: dlopen.c's protocol events on every exit, the undefined ones
    included and whatever the module exports: it logs nothing, the load
    of argv[1], or that load followed by one call into the module.  It
    never unloads the module, never constructs an instance, never calls
    twice. *)
Theorem c_main_events argv p :
  exists tr, p_ev (sres_state (DlopenC.main argv p)) = p_ev p ++ tr /\
    (tr = [] \/ tr = [ALoad (arg argv 1)] \/ tr = [ALoad (arg argv 1); ACall (arg argv 1)]).
Proof.
  destruct (DlopenC.main argv p) as [r p'|u p'] eqn:Hr.
  - destruct (c_main_sim argv p r p' Hr) as (tr & [He _] & Hp).
    exists tr. split; [exact He|]. destruct Hp as [[_ ->]|[_ [-> | ->]]]; auto.
  - destruct (c_main_err argv p u p' Hr) as [_ He]. exists [ALoad (arg argv 1)]. auto.
Qed.
End Refinement.
