(* ===== verification/Scenarios.v ===== *)
(** * Concrete runs of the hosts

    A file system holding the three modules of the repository, the
    minimal-variant library of the specification's scenario (section 8:
    [libname] is "MyLib" and the function [run] prints "ran") and a file
    that is not an object; the hosts run on the reference loader with
    glibc's mode check ([glibc_loader]) and without it
    ([lenient_loader]).  The general theorems of [HostCpp] and [HostC] are
    applied here at these inputs, and the glibc result is proved for every
    argument vector. *)

From Stdlib Require Import String List ZArith Bool Lia.
From stdpp Require Import base gmap strings.
From S2P Require Import Prelude Plugin Loader RefLoader Runtime Protocol Modules HostCpp HostC Refinement.
Import ListNotations.

(** The library of the specification's minimal-variant scenario. *)
Definition mylib_so : objfile :=
  ObjShared (<[libname_sym := SymCStr "MyLib"]> {["run" := SymFunc ["ran"]]}) true.

(** Modules that break the factory protocol: no [Factory]; a [classname]
    that is a function; a [Factory] that is a string. *)
Definition nofactory_so : objfile :=
  ObjShared {[classname_sym := SymCStr "half Object"]} true.
Definition badname_so : objfile :=
  ObjShared {[classname_sym := SymFunc []]} true.
Definition badfactory_so : objfile :=
  ObjShared (<[classname_sym := SymCStr "odd Object"]> {[Factory_sym := SymCStr "Factory"]}) true.

Definition fs : gmap string objfile :=
  <["./foo.so" := Foo.so]> (<["./bar.so" := Bar.so]> (<["./baz.so" := Baz.so]>
    (<["./mylib.so" := mylib_so]> (<["./notelf.so" := ObjInvalid]>
    (<["./nofactory.so" := nofactory_so]> (<["./badname.so" := badname_so]>
    (<["./badfactory.so" := badfactory_so]> ∅))))))).

(** A fresh process over that file system. *)
Definition boot : proc rlstate := proc_init (rl_init fs).

(** The two hosts on the two platforms. *)
Definition cpp_glibc := @DlopenCc.main rlstate glibc_loader.
Definition cpp_lenient := @DlopenCc.main rlstate lenient_loader.
Definition c_glibc := @DlopenC.main rlstate glibc_loader.

(** The process once dlopen.cc has opened foo.so (line 19). *)
Definition foo_loaded : proc rlstate :=
  set_ld (@opened rlstate lenient_loader "./foo.so" (p_ld boot)) boot.

(** ** dlopen.cc on glibc *)

(** C3: glibc refuses mode 0 before it looks at the file: every run of the
    factory host with a path fails at line 19 with glibc's diagnostic,
    nothing is loaded and no protocol event is logged. *)
Theorem main_glibc_rejects argv (p : proc rlstate) :
  2 <= length argv ->
  cpp_glibc argv p =
    SOk (-1)%Z {| p_ld := rl_set_err None (p_ld p); p_heap := p_heap p; p_next := p_next p;
                  p_out := p_out p ++ [("Could not open library " ++ arg argv 1 ++ " : "
                            ++ arg argv 1 ++ ": invalid mode for dlopen(): Invalid argument")%string];
                  p_ev := p_ev p |}.
Proof.
  intros Hlen.
  destruct (@open_library_fail rlstate glibc_loader glibc_laws (arg argv 1) p eq_refl)
    as (d & Hd & Hrun).
  cbn in Hd. injection Hd as <-.
  exact (@main_not_loaded rlstate glibc_loader argv p _ Hlen Hrun).
Qed.

(** ** The scenarios of the specification, section 8 *)

(** The factory host on foo.so (on a platform that accepts mode 0): the
    announcement, then the factory's line before the constructor's, the
    test line and the destructor's line; exit status 0; the loader and
    the heap end as they started. *)
Example foo_scenario :
  cpp_lenient ["./dlopen"; "./foo.so"] boot =
    SOk 0%Z {| p_ld := rl_init fs; p_heap := ∅; p_next := 2;
               p_out := [("creating a " ++ DlopenCc.dq ++ "foo Object" ++ DlopenCc.dq ++ "...")%string;
                         "    making foo [foo.cc foofactory::makedyn()]";
                         "    foo created [foo.cc - foo::foo()]";
                         "    foo tested [foo.cc - foo::test()]";
                         "    foo destroyed [foo.cc - foo::~foo()]"];
               p_ev := [ALoad "./foo.so"; AConstruct 1 "./foo.so"; AInvoke 1; ARelease 1;
                        AUnload "./foo.so"] |}.
Proof. vm_compute. reflexivity. Qed.

(** The minimal host on the specification's library, on glibc: the name
    line, then the function's output, exit status 0. *)
Example mylib_run :
  observe (c_glibc ["./dlopen"; "./mylib.so"; "run"] boot) =
    (Exited 0, ["Using library: MyLib"; "ran"]).
Proof. vm_compute. reflexivity. Qed.

(** The same library with a function it does not export: the message
    names the library as the symbol and the symbol as the library, and the
    status is 255. *)
Example mylib_missing :
  observe (c_glibc ["./dlopen"; "./mylib.so"; "missing"] boot) =
    (Exited 255, ["Using library: MyLib"; "Could not find symbol ./mylib.so in library missing"]).
Proof. vm_compute. reflexivity. Qed.

(** ** Witnesses: the general theorems at concrete inputs *)

Ltac discharge := vm_compute; first [reflexivity | lia | idtac].

Lemma main_session_witness :
  cpp_lenient ["./dlopen"; "./foo.so"] boot =
    SOk 0%Z {| p_ld := p_ld boot; p_heap := p_heap boot; p_next := S (p_next boot);
               p_out := p_out boot ++ session_lines Foo.classname Foo.foofactory;
               p_ev := p_ev boot ++ session_trace "./foo.so" (p_next boot) |}.
Proof.
  unfold cpp_lenient.
  apply (@main_session rlstate lenient_loader lenient_laws ["./dlopen"; "./foo.so"] boot Foo.so); discharge.
Defined.

Lemma main_safe_witness : st_safe (cpp_lenient ["./dlopen"; "./foo.so"]) boot.
Proof.
  unfold cpp_lenient. apply (@main_safe rlstate lenient_loader lenient_laws); [discharge|].
  intros o Ho. vm_compute in Ho. injection Ho as <-. discharge.
Defined.

Lemma main_load_error_witness :
  exists d,
    fst (@ld_error _ lenient_loader (@opened _ lenient_loader "./notelf.so" (p_ld boot))) = Some d /\
    cpp_lenient ["./dlopen"; "./notelf.so"] boot =
      SOk (-1)%Z {| p_ld := snd (@ld_error _ lenient_loader (@opened _ lenient_loader "./notelf.so" (p_ld boot)));
                    p_heap := p_heap boot; p_next := p_next boot;
                    p_out := p_out boot ++ [("Could not open library ./notelf.so : " ++ d)%string];
                    p_ev := p_ev boot |} /\
    (forall q, @ld_is_open _ lenient_loader
                 (snd (@ld_error _ lenient_loader (@opened _ lenient_loader "./notelf.so" (p_ld boot)))) q
               = @ld_is_open _ lenient_loader (p_ld boot) q).
Proof.
  unfold cpp_lenient.
  apply (@main_load_error rlstate lenient_loader lenient_laws ["./dlopen"; "./notelf.so"] boot); discharge.
Defined.

Lemma main_glibc_rejects_witness :
  cpp_glibc ["./dlopen"; "./foo.so"] boot =
    SOk (-1)%Z {| p_ld := rl_set_err None (p_ld boot); p_heap := p_heap boot; p_next := p_next boot;
                  p_out := p_out boot ++ [("Could not open library ./foo.so : ./foo.so: invalid mode for dlopen(): Invalid argument")%string];
                  p_ev := p_ev boot |}.
Proof. apply (main_glibc_rejects ["./dlopen"; "./foo.so"] boot); discharge. Defined.

Lemma main_no_classname_witness :
  exists l,
    cpp_lenient ["./dlopen"; "./mylib.so"] boot =
      SOk (-1)%Z {| p_ld := l; p_heap := p_heap boot; p_next := p_next boot;
                    p_out := p_out boot ++ [("Could not find classname in ./mylib.so")%string];
                    p_ev := p_ev boot ++ [ALoad "./mylib.so"] |} /\
    @ld_is_open _ lenient_loader l "./mylib.so" = true.
Proof.
  unfold cpp_lenient. eexists.
  apply (@main_no_classname rlstate lenient_loader lenient_laws ["./dlopen"; "./mylib.so"] boot mylib_so);
    discharge.
Defined.

Lemma main_no_factory_witness :
  exists l,
    cpp_lenient ["./dlopen"; "./nofactory.so"] boot =
      SOk (-1)%Z {| p_ld := l; p_heap := p_heap boot; p_next := p_next boot;
                    p_out := p_out boot ++ [("creating a " ++ DlopenCc.dq ++ "half Object" ++ DlopenCc.dq ++ "...")%string;
                                            ("Could not find Factory in ./nofactory.so")%string];
                    p_ev := p_ev boot ++ [ALoad "./nofactory.so"] |} /\
    @ld_is_open _ lenient_loader l "./nofactory.so" = true.
Proof.
  unfold cpp_lenient. eexists.
  apply (@main_no_factory rlstate lenient_loader lenient_laws ["./dlopen"; "./nofactory.so"] boot
           nofactory_so "half Object"); discharge.
Defined.

Lemma main_usage_witness :
  cpp_glibc ["./dlopen"] boot = SOk (-1)%Z (set_out (p_out boot ++ [DlopenCc.usage]) boot).
Proof. unfold cpp_glibc. apply (@main_usage rlstate glibc_loader); discharge. Defined.

Lemma main_bad_classname_witness :
  exists p', cpp_lenient ["./dlopen"; "./badname.so"] boot = SErr (UB_BadType classname_sym) p'.
Proof.
  unfold cpp_lenient.
  apply (@main_bad_classname rlstate lenient_loader lenient_laws _ boot badname_so (SymFunc []));
    discharge.
Defined.

Lemma main_bad_factory_witness :
  exists p', cpp_lenient ["./dlopen"; "./badfactory.so"] boot = SErr (UB_BadType Factory_sym) p'.
Proof.
  unfold cpp_lenient.
  apply (@main_bad_factory rlstate lenient_loader lenient_laws _ boot badfactory_so "odd Object"
           (SymCStr "Factory")); discharge.
Defined.

Lemma c_main_session_witness :
  c_glibc ["./dlopen"; "./mylib.so"; "run"] boot =
    SOk 0%Z (set_ev (p_ev boot ++ [ALoad "./mylib.so"; ACall "./mylib.so"])
               (set_out (p_out boot ++ [("Using library: MyLib")%string] ++ ["ran"%string])
                 (set_ld (@c_opened _ glibc_loader "./mylib.so" (p_ld boot)) boot))) /\
  @ld_is_open _ glibc_loader (@c_opened _ glibc_loader "./mylib.so" (p_ld boot)) "./mylib.so" = true.
Proof.
  unfold c_glibc.
  apply (@c_main_session rlstate glibc_loader glibc_laws ["./dlopen"; "./mylib.so"; "run"] boot
           mylib_so "MyLib" ["ran"]); discharge.
Defined.

Lemma c_main_no_function_witness :
  exists l,
    c_glibc ["./dlopen"; "./mylib.so"; "missing"] boot =
      SOk (-1)%Z {| p_ld := l; p_heap := p_heap boot; p_next := p_next boot;
                    p_out := p_out boot ++ [("Using library: MyLib")%string;
                      ("Could not find symbol ./mylib.so in library missing")%string];
                    p_ev := p_ev boot ++ [ALoad "./mylib.so"] |}.
Proof.
  unfold c_glibc.
  apply (@c_main_no_function rlstate glibc_loader glibc_laws ["./dlopen"; "./mylib.so"; "missing"]
           boot mylib_so "MyLib"); discharge.
Defined.

Lemma c_main_load_error_witness :
  c_glibc ["./dlopen"; "./nothere.so"; "run"] boot =
    SOk (-1)%Z (set_out (p_out boot ++ [("Could not open library ./nothere.so")%string])
                  (set_ld (@c_opened _ glibc_loader "./nothere.so" (p_ld boot)) boot)).
Proof.
  unfold c_glibc. apply (@c_main_load_error rlstate glibc_loader glibc_laws); discharge.
Defined.

Lemma c_main_no_libname_witness :
  exists l,
    c_glibc ["./dlopen"; "./foo.so"; "run"] boot =
      SOk (-1)%Z {| p_ld := l; p_heap := p_heap boot; p_next := p_next boot;
                    p_out := p_out boot ++ [("Could not find library name in library ./foo.so")%string];
                    p_ev := p_ev boot ++ [ALoad "./foo.so"] |}.
Proof.
  unfold c_glibc.
  apply (@c_main_no_libname rlstate glibc_loader glibc_laws ["./dlopen"; "./foo.so"; "run"] boot Foo.so);
    discharge.
Defined.

Lemma c_main_usage_witness :
  c_glibc ["./dlopen"; "./mylib.so"] boot = SOk (-1)%Z (set_out (p_out boot ++ [DlopenC.usage]) boot).
Proof. unfold c_glibc. apply (@c_main_usage rlstate glibc_loader); discharge. Defined.

Lemma c_main_bad_function_witness :
  exists p', c_glibc ["./dlopen"; "./mylib.so"; "libname"] boot = SErr (UB_BadType "libname") p'.
Proof.
  unfold c_glibc.
  apply (@c_main_bad_function rlstate glibc_loader glibc_laws ["./dlopen"; "./mylib.so"; "libname"] boot
           mylib_so "MyLib" (SymCStr "MyLib"));
    discharge.
Defined.

Lemma c_main_safe_witness : st_safe (c_glibc ["./dlopen"; "./mylib.so"; "run"]) boot.
Proof.
  unfold c_glibc. apply (@c_main_safe rlstate glibc_loader glibc_laws).
  intros o Ho. vm_compute in Ho. injection Ho as <-. discharge.
Defined.

Lemma main_refines_witness :
  exists r p' tr, cpp_lenient ["./dlopen"; "./foo.so"] boot = SOk r p' /\ p_ev p' = p_ev boot ++ tr /\
    arun (@abs rlstate lenient_loader boot) tr (@abs rlstate lenient_loader p') /\ host_protocol "./foo.so" (p_next boot) r tr.
Proof.
  unfold cpp_lenient. apply (@main_refines rlstate lenient_loader lenient_laws ["./dlopen"; "./foo.so"] boot).
  - discharge.
  - intros ptr o Ho. vm_compute in Ho. discriminate Ho.
  - intros o Ho. vm_compute in Ho. injection Ho as <-. discharge.
Defined.

Lemma use_plugin_refines_witness :
  exists p', @DlopenCc.use_plugin rlstate lenient_loader "./foo.so" (SymFactory Foo.foofactory) foo_loaded
               = SOk tt p' /\
    p_ev p' = p_ev foo_loaded ++ plugin_trace "./foo.so" (p_next foo_loaded) /\
    arun (@abs _ lenient_loader foo_loaded) (plugin_trace "./foo.so" (p_next foo_loaded))
      (@abs _ lenient_loader p').
Proof.
  apply (@use_plugin_refines rlstate lenient_loader lenient_laws); [discharge | discharge |].
  intros ptr o Ho. vm_compute in Ho. discriminate Ho.
Defined.

Lemma c_main_refines_witness :
  exists r p' tr, c_glibc ["./dlopen"; "./mylib.so"; "run"] boot = SOk r p' /\ p_ev p' = p_ev boot ++ tr /\
    arun (@abs rlstate glibc_loader boot) tr (@abs rlstate glibc_loader p') /\ c_host_protocol "./mylib.so" r tr.
Proof.
  unfold c_glibc. apply (@c_main_refines rlstate glibc_loader glibc_laws ["./dlopen"; "./mylib.so"; "run"] boot).
  intros o Ho. vm_compute in Ho. injection Ho as <-. discharge.
Defined.

Lemma main_exit_status_witness :
  exists out, observe (cpp_lenient ["./dlopen"; "./foo.so"] boot) =
    (Exited (if @session_ok rlstate lenient_loader ["./dlopen"; "./foo.so"] (p_ld boot) then 0 else 255)%Z, out).
Proof.
  unfold cpp_lenient. apply (@main_exit_status rlstate lenient_loader lenient_laws); [discharge|].
  intros o Ho. vm_compute in Ho. injection Ho as <-. discharge.
Defined.

Lemma c_main_exit_status_witness :
  exists out, observe (c_glibc ["./dlopen"; "./mylib.so"; "run"] boot) =
    (Exited (if @c_session_ok rlstate glibc_loader ["./dlopen"; "./mylib.so"; "run"] (p_ld boot)
             then 0 else 255)%Z, out).
Proof.
  unfold c_glibc. apply (@c_main_exit_status rlstate glibc_loader glibc_laws).
  intros o Ho. vm_compute in Ho. injection Ho as <-. discharge.
Defined.

Lemma main_ub_only_type_witness :
  cpp_lenient ["./dlopen"; "./badname.so"] boot =
    SErr (UB_BadType classname_sym) (sres_state (cpp_lenient ["./dlopen"; "./badname.so"] boot)) /\
  (UB_BadType classname_sym = UB_BadType classname_sym \/
   UB_BadType classname_sym = UB_BadType Factory_sym).
Proof.
  split; [discharge|].
  unfold cpp_lenient.
  apply (@main_ub_only_type rlstate lenient_loader lenient_laws ["./dlopen"; "./badname.so"] boot
           (UB_BadType classname_sym) (sres_state (cpp_lenient ["./dlopen"; "./badname.so"] boot)));
    discharge.
Defined.

Lemma c_main_ub_only_type_witness :
  c_glibc ["./dlopen"; "./mylib.so"; "libname"] boot =
    SErr (UB_BadType "libname") (sres_state (c_glibc ["./dlopen"; "./mylib.so"; "libname"] boot)) /\
  (UB_BadType "libname" = UB_BadType libname_sym \/ UB_BadType "libname" = UB_BadType "libname").
Proof.
  split; [discharge|].
  unfold c_glibc.
  apply (@c_main_ub_only_type rlstate glibc_loader glibc_laws ["./dlopen"; "./mylib.so"; "libname"] boot
           (UB_BadType "libname") (sres_state (c_glibc ["./dlopen"; "./mylib.so"; "libname"] boot))).
  discharge.
Defined.

Lemma main_argv_proper_witness :
  cpp_lenient ["./dlopen"; "./foo.so"] = cpp_lenient ["dlopen"; "./foo.so"; "extra"].
Proof.
  unfold cpp_lenient. apply (@main_argv_proper rlstate lenient_loader). split; reflexivity.
Defined.

Lemma c_main_argv_proper_witness :
  c_glibc ["./dlopen"; "./mylib.so"; "run"] = c_glibc ["dlopen"; "./mylib.so"; "run"; "extra"].
Proof.
  unfold c_glibc. apply (@c_main_argv_proper rlstate glibc_loader). repeat split.
Defined.

Lemma main_wf_all_witness :
  @proc_wf rlstate lenient_loader (sres_state (cpp_lenient ["./dlopen"; "./badfactory.so"] boot)).
Proof.
  unfold cpp_lenient. apply (@main_wf_all rlstate lenient_loader lenient_laws).
  split; [intros ptr o Ho; vm_compute in Ho; discriminate Ho | intros ptr _; reflexivity].
Defined.

Lemma main_liveness_witness :
  exists tr, p_ev (sres_state (cpp_lenient ["./dlopen"; "./foo.so"] boot)) = p_ev boot ++ tr /\
    (forall n h, leads_to (eq (AConstruct n h)) (eq (ARelease n)) tr) /\
    ((exists p', cpp_lenient ["./dlopen"; "./foo.so"] boot = SOk 0%Z p') <-> In (AUnload "./foo.so") tr) /\
    ((exists p', cpp_lenient ["./dlopen"; "./foo.so"] boot = SOk 0%Z p') ->
     leads_to (eq (ALoad "./foo.so")) (eq (AUnload "./foo.so")) tr).
Proof.
  unfold cpp_lenient. apply (@main_liveness rlstate lenient_loader lenient_laws ["./dlopen"; "./foo.so"] boot).
  - discharge.
  - intros ptr o Ho. vm_compute in Ho. discriminate Ho.
Defined.

Lemma c_main_events_witness :
  exists tr, p_ev (sres_state (c_glibc ["./dlopen"; "./mylib.so"; "libname"] boot)) = p_ev boot ++ tr /\
    (tr = [] \/ tr = [ALoad "./mylib.so"] \/ tr = [ALoad "./mylib.so"; ACall "./mylib.so"]).
Proof.
  unfold c_glibc. apply (@c_main_events rlstate glibc_loader glibc_laws ["./dlopen"; "./mylib.so"; "libname"] boot).
Defined.
